(** * PyModuleSnooper: the shutdown hook of [sitecustomize.py]

    A shallow embedding of [sitecustomize.py] and of the library calls it
    makes ([os.environ.get], [os.path.join], [os.umask], [os.makedirs],
    [logging.FileHandler], [json.dumps], [datetime.strftime]), followed by
    the properties of the collector.

    Python strings are sequences of Unicode code points; a dictionary is an
    association list in insertion order, as [dict] iterates; a call that may
    raise returns a [result]; the effects of the shutdown callback on the
    process and the file system are recorded as a trace of events. *)

From Stdlib Require Import List NArith ZArith Lia Bool String Ascii.
From Stdlib Require Import DecimalFacts DecimalPos DecimalN.
Import ListNotations.

Set Implicit Arguments.
Set Warnings "-register-all".

(* ===================================================================== *)
(** ** Python strings *)
(* ===================================================================== *)

(** A [str] is a sequence of code points, each what [ord] returns. *)
Abbreviation pystr := (list N).

(** A string literal of the source. *)
Definition py (s : string) : pystr := map N_of_ascii (list_ascii_of_string s).

Fixpoint pystr_eqb (a b : pystr) : bool :=
  match a, b with
  | [], [] => true
  | x :: a', y :: b' => N.eqb x y && pystr_eqb a' b'
  | _, _ => false
  end.

(** [s.startswith(prefix)] *)
Fixpoint startswith (s prefix : pystr) : bool :=
  match prefix, s with
  | [], _ => true
  | p :: prefix', c :: s' => N.eqb p c && startswith s' prefix'
  | _ :: _, [] => false
  end.

(** [s.endswith(suffix)] *)
Definition endswith (s suffix : pystr) : bool :=
  startswith (rev s) (rev suffix).

(** [sep.join(parts)] *)
Fixpoint str_join (sep : pystr) (parts : list pystr) : pystr :=
  match parts with
  | [] => []
  | [p] => p
  | p :: rest => p ++ sep ++ str_join sep rest
  end.

(** The digits of [str(n)] for a non-negative [n]. *)
Fixpoint uint_codes (d : Decimal.uint) : pystr :=
  match d with
  | Decimal.Nil => []
  | Decimal.D0 d' => 48%N :: uint_codes d'
  | Decimal.D1 d' => 49%N :: uint_codes d'
  | Decimal.D2 d' => 50%N :: uint_codes d'
  | Decimal.D3 d' => 51%N :: uint_codes d'
  | Decimal.D4 d' => 52%N :: uint_codes d'
  | Decimal.D5 d' => 53%N :: uint_codes d'
  | Decimal.D6 d' => 54%N :: uint_codes d'
  | Decimal.D7 d' => 55%N :: uint_codes d'
  | Decimal.D8 d' => 56%N :: uint_codes d'
  | Decimal.D9 d' => 57%N :: uint_codes d'
  end.

Definition str_N (n : N) : pystr := uint_codes (N.to_uint n).

(** [str(z)] for an [int]: decimal, no padding, a sign when negative. *)
Definition str_int (z : Z) : pystr :=
  match z with
  | Zneg p => 45%N :: str_N (Npos p)
  | _ => str_N (Z.to_N z)
  end.

(** A [%0wd] field of [strftime]: decimal, zero-padded on the left to
    [width] characters. *)
Definition zero_pad (width : nat) (z : Z) : pystr :=
  let s := str_int z in
  repeat 48%N (width - List.length s) ++ s.

(* ===================================================================== *)
(** ** Python values, exceptions, dictionaries *)
(* ===================================================================== *)

(** The objects that reach the log record: [sys.executable] and a
    [__file__] are a [str] or [None], [sys.path] is a list, the environment
    holds [str] values.  [PyObject] stands for any other object that a
    program may have put there and for which [json] has no encoder (a
    [bytes] path, a [pathlib.Path]); numbers do not occur in these
    fields and are left out. *)
Inductive pyval : Type :=
| PyNone
| PyBool (b : bool)
| PyStr (s : pystr)
| PyList (l : list pyval)
| PyDict (d : list (pystr * pyval))
| PyObject.

(** [bool(v)] *)
Definition truthy (v : pyval) : bool :=
  match v with
  | PyNone => false
  | PyBool b => b
  | PyStr s => negb (pystr_eqb s [])
  | PyList l => match l with [] => false | _ => true end
  | PyDict d => match d with [] => false | _ => true end
  | PyObject => true
  end.

Inductive exn : Type :=
| OSError (errno : Z)
| TypeError
| MPIException (code : Z).

Inductive result (A : Type) : Type :=
| Ok (a : A)
| Raise (e : exn).
Arguments Ok {A} a.
Arguments Raise {A} e.

(** A [dict] with [str] keys, in insertion order. *)
Definition dict (V : Type) := list (pystr * V).

(** [d.get(k)], [None] when the key is missing. *)
Fixpoint dict_get {V} (d : dict V) (k : pystr) : option V :=
  match d with
  | [] => None
  | (k', v) :: d' => if pystr_eqb k' k then Some v else dict_get d' k
  end.

(** [k in d] *)
Definition dict_contains {V} (d : dict V) (k : pystr) : bool :=
  match dict_get d k with Some _ => true | None => false end.

(** [d[k] = v]: the value is replaced in place, a new key goes last. *)
Fixpoint dict_set {V} (d : dict V) (k : pystr) (v : V) : dict V :=
  match d with
  | [] => [(k, v)]
  | (k', v') :: d' =>
      if pystr_eqb k' k then (k', v) :: d' else (k', v') :: dict_set d' k v
  end.

(** The keys of a dictionary are pairwise distinct. *)
Definition dict_wf {V} (d : dict V) : Prop := NoDup (map fst d).

(* ===================================================================== *)
(** ** The process: environment, modules, MPI runtime, clock *)
(* ===================================================================== *)

(** What [mpi4py.MPI] answers to the three queries of the collector; each
    call may raise. *)
Record mpi_runtime : Type := {
  Is_finalized : result bool;
  Is_initialized : result bool;
  COMM_WORLD_Get_rank : result Z
}.

(** The value of the attribute [MPI] of a module. *)
Inductive mpi_attr : Type :=
| MPI_None
| MPI_runtime (r : mpi_runtime).

(** A module object: its attributes [__file__] and [MPI], each present or
    not.  An entry [None] of [sys.modules] has neither. *)
Record module : Type := {
  __file__ : option pyval;
  MPI : option mpi_attr
}.

Record datetime : Type := {
  year : Z; month : Z; day : Z;
  hour : Z; minute : Z; second : Z; microsecond : Z
}.

(** The state of the process and of its surroundings when the collector
    runs.  [makedirs_outcome path] and [open_outcome path] say whether the
    calls [os.makedirs(path, exist_ok=True)] and
    [logging.FileHandler(path)] fail, and with what error.  The last four
    fields are the working directory and the state of the [logging]
    package: the level given to [logging.disable] (0 when it was never
    called), the attribute [disabled] of the logger [PyModuleSnooper], and
    the files of the handlers that this logger, one object for the whole
    process, already has. *)
Record world : Type := {
  environ : dict pystr;
  sys_modules : dict module;
  sys_path : list pyval;
  sys_executable : pyval;
  now : datetime;
  hostname : pystr;
  pid : Z;
  makedirs_outcome : pystr -> option exn;
  open_outcome : pystr -> option exn;
  getcwd : pystr;
  logging_disable : Z;
  logger_disabled : bool;
  prior_handlers : list pystr
}.

(* ===================================================================== *)
(** ** Library calls: formatting and paths *)
(* ===================================================================== *)

(** One directive [%c] of [strftime]. *)
Definition strftime_directive (d : datetime) (c : N) : pystr :=
  if N.eqb c 109 then zero_pad 2 (month d)            (* %m *)
  else if N.eqb c 100 then zero_pad 2 (day d)         (* %d *)
  else if N.eqb c 89 then zero_pad 4 (year d)         (* %Y *)
  else if N.eqb c 72 then zero_pad 2 (hour d)         (* %H *)
  else if N.eqb c 77 then zero_pad 2 (minute d)       (* %M *)
  else if N.eqb c 83 then zero_pad 2 (second d)       (* %S *)
  else if N.eqb c 102 then zero_pad 6 (microsecond d) (* %f *)
  else if N.eqb c 37 then [37%N]                      (* %% *)
  else [37%N; c].

(** [d.strftime(fmt)] *)
Fixpoint strftime (d : datetime) (fmt : pystr) : pystr :=
  match fmt with
  | [] => []
  | c :: rest =>
      if N.eqb c 37 then
        match rest with
        | [] => [37%N]
        | c' :: rest' => strftime_directive d c' ++ strftime d rest'
        end
      else c :: strftime d rest
  end.

(** [fmt.format] applied to [args], for a format whose only fields are
    [{}]; the arguments are already converted by [str]. *)
Fixpoint str_format (fmt : pystr) (args : list pystr) : pystr :=
  match fmt with
  | [] => []
  | c :: rest =>
      if N.eqb c 123 then
        match rest with
        | c' :: rest' =>
            if N.eqb c' 125 then
              match args with
              | a :: args' => a ++ str_format rest' args'
              | [] => str_format rest' []
              end
            else c :: str_format rest args
        | [] => [c]
        end
      else c :: str_format rest args
  end.

Definition sep : pystr := py "/".

(** [os.path.join(a, *p)] of [posixpath]: a component that starts with the
    separator discards what precedes it; a separator is inserted unless
    the path so far is empty or already ends with one. *)
Fixpoint os_path_join (a : pystr) (p : list pystr) : pystr :=
  match p with
  | [] => a
  | b :: p' =>
      let path :=
        if startswith b sep then b
        else if pystr_eqb a [] || endswith a sep then a ++ b
        else a ++ sep ++ b in
      os_path_join path p'
  end.

(** [s.split(c)] for a separator of one character. *)
Fixpoint split_on (c : N) (s : pystr) : list pystr :=
  match s with
  | [] => [[]]
  | x :: s' =>
      if N.eqb x c then [] :: split_on c s'
      else
        match split_on c s' with
        | cur :: rest => (x :: cur) :: rest
        | [] => [[x]]
        end
  end.

Definition dot : pystr := py ".".
Definition dotdot : pystr := py "..".

Definition is_empty {A} (l : list A) : bool :=
  match l with [] => true | _ => false end.

(** The loop of [posixpath.normpath] over the components: empty and ['.']
    components are skipped, a ['..'] removes the component before it, and
    is kept where there is none to remove in a relative path or where the
    one before is itself ['..']. *)
Fixpoint normpath_loop (initial_slashes : nat) (comps new_comps : list pystr)
    : list pystr :=
  match comps with
  | [] => new_comps
  | comp :: comps' =>
      if pystr_eqb comp [] || pystr_eqb comp dot then
        normpath_loop initial_slashes comps' new_comps
      else if negb (pystr_eqb comp dotdot)
              || (Nat.eqb initial_slashes 0 && is_empty new_comps)
              || (negb (is_empty new_comps)
                  && pystr_eqb (last new_comps []) dotdot) then
        normpath_loop initial_slashes comps' (new_comps ++ [comp])
      else if negb (is_empty new_comps) then
        normpath_loop initial_slashes comps' (removelast new_comps)
      else normpath_loop initial_slashes comps' new_comps
  end.

(** [os.path.normpath(path)] of [posixpath]: exactly two leading slashes
    are kept, three or more are one. *)
Definition os_path_normpath (path : pystr) : pystr :=
  if pystr_eqb path [] then dot
  else
    let initial_slashes :=
      if startswith path sep then
        if startswith path (sep ++ sep)
           && negb (startswith path (sep ++ sep ++ sep))
        then 2 else 1
      else 0 in
    let comps := normpath_loop initial_slashes (split_on 47 path) [] in
    let joined := str_join sep comps in
    let path' := repeat 47%N initial_slashes ++ joined in
    if pystr_eqb path' [] then dot else path'.

(** [os.path.abspath(path)] with the working directory [cwd]. *)
Definition os_path_abspath (cwd path : pystr) : pystr :=
  os_path_normpath
    (if startswith path sep then path else os_path_join cwd [path]).

(** [os.environ.get(key, default)] with a [str] default. *)
Definition environ_get (env : dict pystr) (key default : pystr) : pystr :=
  match dict_get env key with
  | Some v => v
  | None => default
  end.

(** [os.environ.get(key, False)] *)
Definition environ_get_or_False (env : dict pystr) (key : pystr) : pyval :=
  match dict_get env key with
  | Some v => PyStr v
  | None => PyBool false
  end.

(* ===================================================================== *)
(** ** Library calls: [json.dumps] *)
(* ===================================================================== *)

(** A digit of [format(n, 'x')]. *)
Definition hex_digit (n : N) : N :=
  if N.ltb n 10 then (48 + n)%N else (87 + n)%N.

(** ['{0:04x}'.format(n)] for [n < 0x10000], the only values the encoder
    applies it to. *)
Definition hex4 (n : N) : pystr :=
  [ hex_digit (N.shiftr n 12); hex_digit (N.land (N.shiftr n 8) 15);
    hex_digit (N.land (N.shiftr n 4) 15); hex_digit (N.land n 15) ].

(** The characters the regular expression [ESCAPE_ASCII] matches:
    backslash, double quote, and everything outside [' '..'~']. *)
Definition needs_escape (c : N) : bool :=
  N.eqb c 92 || N.eqb c 34 || negb (N.leb 32 c && N.leb c 126).

(** The replacement of one matched character: [ESCAPE_DCT] first, then
    [\uXXXX], with a surrogate pair above the basic plane. *)
Definition escape_char (c : N) : pystr :=
  if N.eqb c 92 then py "\\"
  else if N.eqb c 34 then 92%N :: [34%N]
  else if N.eqb c 8 then py "\b"
  else if N.eqb c 12 then py "\f"
  else if N.eqb c 10 then py "\n"
  else if N.eqb c 13 then py "\r"
  else if N.eqb c 9 then py "\t"
  else if N.ltb c 65536 then py "\u" ++ hex4 c
  else
    let n := (c - 65536)%N in
    let s1 := N.lor 55296 (N.land (N.shiftr n 10) 1023) in
    let s2 := N.lor 56320 (N.land n 1023) in
    py "\u" ++ hex4 s1 ++ py "\u" ++ hex4 s2.

Definition encode_char (c : N) : pystr :=
  if needs_escape c then escape_char c else [c].

(** [py_encode_basestring_ascii(s)]: the encoder of [str] under the
    default [ensure_ascii=True]. *)
Definition encode_basestring_ascii (s : pystr) : pystr :=
  34%N :: flat_map encode_char s ++ [34%N].

(** The results of the items, or the first exception. *)
Fixpoint sequence_result {A} (l : list (result A)) : result (list A) :=
  match l with
  | [] => Ok []
  | Raise e :: _ => Raise e
  | Ok a :: l' =>
      match sequence_result l' with
      | Ok l'' => Ok (a :: l'')
      | Raise e => Raise e
      end
  end.

(** [json.dumps(v)] with the default separators [', '] and [': ']. *)
Fixpoint json_dumps (v : pyval) : result pystr :=
  match v with
  | PyNone => Ok (py "null")
  | PyBool true => Ok (py "true")
  | PyBool false => Ok (py "false")
  | PyStr s => Ok (encode_basestring_ascii s)
  | PyList l =>
      match sequence_result (map json_dumps l) with
      | Ok items => Ok (py "[" ++ str_join (py ", ") items ++ py "]")
      | Raise e => Raise e
      end
  | PyDict d =>
      match sequence_result
              (map (fun kv =>
                      match json_dumps (snd kv) with
                      | Ok t => Ok (encode_basestring_ascii (fst kv)
                                      ++ py ": " ++ t)
                      | Raise e => Raise e
                      end) d) with
      | Ok items => Ok (py "{" ++ str_join (py ", ") items ++ py "}")
      | Raise e => Raise e
      end
  | PyObject => Raise TypeError
  end.

(* ===================================================================== *)
(** ** Effects on the process and the file system *)
(* ===================================================================== *)

(** The calls the collector makes to the operating system.  A creation
    records the permission bits the new directory or file receives. *)
Inductive event : Type :=
| EvUmask (mask : Z)
| EvMakedirs (path : pystr) (mode : Z)
| EvOpen (path : pystr) (mode : Z)
| EvWrite (path : pystr) (data : pystr).

Record proc_state : Type := {
  cur_umask : Z;
  trace : list event
}.

(** A computation that reads and changes the process state and returns or
    raises.  The effects made before an exception remain. *)
Definition M (A : Type) : Type := proc_state -> result A * proc_state.

Definition ret {A} (a : A) : M A := fun st => (Ok a, st).

Definition raise {A} (e : exn) : M A := fun st => (Raise e, st).

Definition bind {A B} (m : M A) (k : A -> M B) : M B :=
  fun st =>
    match m st with
    | (Ok a, st') => k a st'
    | (Raise e, st') => (Raise e, st')
    end.

Notation "x <- m ;; k" := (bind m (fun x => k))
  (at level 61, m at next level, right associativity).
Notation "m ;; k" := (bind m (fun _ => k))
  (at level 61, right associativity).

Definition lift {A} (r : result A) : M A := fun st => (r, st).

Definition emit (e : event) : M unit :=
  fun st => (Ok tt, {| cur_umask := cur_umask st; trace := trace st ++ [e] |}).

(** The permission bits of a file created with [mode] under [mask]:
    [mode & ~mask]. *)
Definition apply_umask (mode mask : Z) : Z := Z.land mode (Z.lnot mask).

Definition group_writable (mode : Z) : bool := Z.testbit mode 4.  (* 0o020 *)
Definition other_writable (mode : Z) : bool := Z.testbit mode 1.  (* 0o002 *)

(** [os.umask(mask)]: sets the mask, returns the previous one. *)
Definition os_umask (mask : Z) : M Z :=
  fun st =>
    (Ok (cur_umask st),
     {| cur_umask := Z.land mask 511; trace := trace st ++ [EvUmask mask] |}).

(** The default [mode=0o777] of [os.makedirs]. *)
Definition MAKEDIRS_MODE : Z := 511.

(** The mode [0o666] with which [open] creates a file. *)
Definition OPEN_MODE : Z := 438.

(** [os.makedirs(path, exist_ok=True)] *)
Definition os_makedirs (w : world) (path : pystr) : M unit :=
  fun st =>
    let st' := {| cur_umask := cur_umask st;
                  trace := trace st
                           ++ [EvMakedirs path
                                 (apply_umask MAKEDIRS_MODE (cur_umask st))] |} in
    match makedirs_outcome w path with
    | None => (Ok tt, st')
    | Some e => (Raise e, st')
    end.

(** [logging.FileHandler(path)]: the handler keeps
    [baseFilename = os.path.abspath(path)] and opens that file for
    appending at once; the handler is known by this file. *)
Definition FileHandler (w : world) (path : pystr) : M pystr :=
  fun st =>
    let baseFilename := os_path_abspath (getcwd w) path in
    let st' := {| cur_umask := cur_umask st;
                  trace := trace st
                           ++ [EvOpen baseFilename
                                 (apply_umask OPEN_MODE (cur_umask st))] |} in
    match open_outcome w path with
    | None => (Ok baseFilename, st')
    | Some e => (Raise e, st')
    end.

(** The logger [PyModuleSnooper], at level [INFO] and with [propagate]
    off: the files of its handlers.  The formatter of each is
    ['%(message)s']. *)
Record Logger : Type := { handlers : list pystr }.

(** [logger.info(msg)] at level [INFO]: when the logger is enabled for
    it, every handler writes the message and its terminator, a newline. *)
Fixpoint emit_to (hs : list pystr) (msg : pystr) : M unit :=
  match hs with
  | [] => ret tt
  | h :: hs' => emit (EvWrite h (msg ++ [10%N])) ;; emit_to hs' msg
  end.

(** [logger.isEnabledFor(logging.INFO)] for a logger whose level is
    [INFO]: false when the logger is disabled or [logging.disable] was
    called with [INFO] (20) or above. *)
Definition isEnabledFor_INFO (w : world) : bool :=
  negb (logger_disabled w) && negb (20 <=? logging_disable w)%Z.

Definition logger_info (w : world) (l : Logger) (msg : pystr) : M unit :=
  if isEnabledFor_INFO w then emit_to (handlers l) msg else ret tt.

(* ===================================================================== *)
(** ** [sitecustomize.py] *)
(* ===================================================================== *)

Definition DATETIME_FMT : pystr := py "%m-%d-%Y %H:%M:%S.%f".

Definition LOGFILE_ROOT : pystr :=
  os_path_join (py "/projects") [py "datascience"; py "PyModuleSnooper"; py "log"].

(** The comprehension [{k: v for k, v in os.environ.items()
    if k.startswith('COBALT')}]. *)
Definition cobalt_envs (env : dict pystr) : dict pystr :=
  filter (fun kv => startswith (fst kv) (py "COBALT")) env.

Definition job_id (w : world) : pystr :=
  environ_get (environ w) (py "COBALT_JOBID") (py "no-ID").

Definition log_dir (w : world) : pystr :=
  os_path_join LOGFILE_ROOT
    [str_int (year (now w)); str_int (month (now w)); str_int (day (now w));
     job_id w].

Definition fname (w : world) : pystr :=
  str_format (py "{}.{}.{}")
    [hostname w; str_int (pid w); strftime (now w) (py "%H.%M.%S.%f")].

Definition log_path (w : world) : pystr := os_path_join (log_dir w) [fname w].

Record DictLogger : Type := {
  _info : dict pyval;
  _logger : Logger
}.

(** The dictionary [self._info] that [DictLogger.__init__] builds first. *)
Definition snapshot_info (w : world) : dict pyval :=
  [ (py "timestamp", PyStr (strftime (now w) DATETIME_FMT));
    (py "sys.executable", sys_executable w);
    (py "sys.path", PyList (sys_path w));
    (py "cobalt_envs",
      PyDict (map (fun kv => (fst kv, PyStr (snd kv)))
                  (cobalt_envs (environ w)))) ].

(** [DictLogger.__init__]; [logger.addHandler] puts the new handler after
    those the logger has. *)
Definition DictLogger_init (w : world) : M DictLogger :=
  let info := snapshot_info w in
  os_makedirs w (log_dir w) ;;
  handler_file <- FileHandler w (log_path w) ;;
  ret {| _info := info;
         _logger := {| handlers := prior_handlers w ++ [handler_file] |} |}.

(** [DictLogger.log_modules] *)
Definition log_modules (w : world) (self : DictLogger)
    (modules_dict : dict pyval) : M unit :=
  let info := dict_set (_info self) (py "modules") (PyDict modules_dict) in
  msg <- lift (json_dumps (PyDict info)) ;;
  logger_info w (_logger self) msg.

(** [is_mpi_rank_nonzero] *)
Definition is_mpi_rank_nonzero (w : world) : result bool :=
  let mpi :=
    if dict_contains (sys_modules w) (py "mpi4py") then
      match dict_get (sys_modules w) (py "mpi4py") with
      | Some m =>
          match MPI m with                    (* hasattr(..., 'MPI') *)
          | Some a => a
          | None => MPI_None
          end
      | None => MPI_None
      end
    else MPI_None in
  match mpi with
  | MPI_None => Ok false
  | MPI_runtime r =>
      match Is_finalized r with
      | Raise e => Raise e
      | Ok true => Ok false
      | Ok false =>
          match Is_initialized r with
          | Raise e => Raise e
          | Ok false => Ok false
          | Ok true =>
              match COMM_WORLD_Get_rank r with
              | Raise e => Raise e
              | Ok rank => Ok (0 <? rank)%Z
              end
          end
      end
  end.

(** The comprehension [{name: module.__file__ for name, module in
    sys.modules.items() if hasattr(module, '__file__')}]. *)
Fixpoint modules_dict (sm : dict module) : dict pyval :=
  match sm with
  | [] => []
  | (module_name, m) :: sm' =>
      match __file__ m with
      | Some f => (module_name, f) :: modules_dict sm'
      | None => modules_dict sm'
      end
  end.

Definition disable_toggle (env : dict pystr) : pyval :=
  environ_get_or_False env (py "DISABLE_PYMODULE_SNOOP").

(** The statements of [inspect_and_log] that follow its two early
    returns. *)
Definition collect (w : world) : M unit :=
  os_umask 2 ;;
  logger <- DictLogger_init w ;;
  log_modules w logger (modules_dict (sys_modules w)).

(** [inspect_and_log] *)
Definition inspect_and_log (w : world) : M unit :=
  nonzero <- lift (is_mpi_rank_nonzero w) ;;
  if nonzero then ret tt
  else if truthy (disable_toggle (environ w)) then ret tt
  else collect w.

(** The last statement of the module, run at import: the callbacks it
    hands to [atexit.register], given the environment at that time. *)
Definition registered (env_at_import : dict pystr) : list (world -> M unit) :=
  if negb (truthy (disable_toggle env_at_import)) then [inspect_and_log]
  else [].

(** [atexit] at interpreter shutdown: each callback runs once; an
    exception that leaves a callback is reported by the interpreter and the
    next callback runs. *)
Fixpoint run_exitfuncs (fs : list (world -> M unit)) (w : world)
    (st : proc_state) : proc_state :=
  match fs with
  | [] => st
  | f :: fs' => run_exitfuncs fs' w (snd (f w st))
  end.

(** A process: the module is imported under [env_at_import]; at shutdown
    the world is [w]. *)
Definition process (env_at_import : dict pystr) (w : world)
    (st : proc_state) : proc_state :=
  run_exitfuncs (registered env_at_import) w st.

(* ===================================================================== *)
(** ** A JSON parser (RFC 8259) *)
(* ===================================================================== *)

(** The parser against which the log record is checked.  It follows the
    grammar of RFC 8259: [value = false / null / true / object / array /
    number / string], insignificant whitespace around the structural
    characters, and nothing but whitespace after the value.  A string is
    returned as its sequence of characters, an escape [\uXXXX] giving the
    16-bit unit it denotes. *)
Inductive json : Type :=
| JNull
| JBool (b : bool)
| JNumber (token : pystr)
| JString (s : pystr)
| JArray (items : list json)
| JObject (members : list (pystr * json)).

Definition is_ws (c : N) : bool :=
  N.eqb c 32 || N.eqb c 9 || N.eqb c 10 || N.eqb c 13.

Fixpoint skip_ws (s : pystr) : pystr :=
  match s with
  | [] => []
  | c :: r => if is_ws c then skip_ws r else s
  end.

Definition is_digit (c : N) : bool := N.leb 48 c && N.leb c 57.

Definition hex_value (c : N) : option N :=
  if is_digit c then Some (c - 48)%N
  else if N.leb 97 c && N.leb c 102 then Some (c - 87)%N
  else if N.leb 65 c && N.leb c 70 then Some (c - 55)%N
  else None.

(** The character named by a two-character escape. *)
Definition simple_escape (e : N) : option N :=
  if N.eqb e 34 then Some 34%N
  else if N.eqb e 92 then Some 92%N
  else if N.eqb e 47 then Some 47%N
  else if N.eqb e 98 then Some 8%N
  else if N.eqb e 102 then Some 12%N
  else if N.eqb e 110 then Some 10%N
  else if N.eqb e 114 then Some 13%N
  else if N.eqb e 116 then Some 9%N
  else None.

(** The characters of a string after its opening quote, up to and
    including the closing quote; control characters must be escaped. *)
Fixpoint parse_chars (s : pystr) : option (pystr * pystr) :=
  match s with
  | [] => None
  | c :: r =>
      if N.eqb c 34 then Some ([], r)
      else if N.eqb c 92 then
        match r with
        | [] => None
        | e :: r' =>
            if N.eqb e 117 then
              match r' with
              | h1 :: h2 :: h3 :: h4 :: r'' =>
                  match hex_value h1, hex_value h2, hex_value h3, hex_value h4 with
                  | Some a, Some b, Some c', Some d =>
                      match parse_chars r'' with
                      | Some (t, rest) =>
                          Some ((4096 * a + 256 * b + 16 * c' + d)%N :: t, rest)
                      | None => None
                      end
                  | _, _, _, _ => None
                  end
              | _ => None
              end
            else
              match simple_escape e with
              | Some x =>
                  match parse_chars r' with
                  | Some (t, rest) => Some (x :: t, rest)
                  | None => None
                  end
              | None => None
              end
        end
      else if N.ltb c 32 then None
      else
        match parse_chars r with
        | Some (t, rest) => Some (c :: t, rest)
        | None => None
        end
  end.

(** The longest prefix of digits, and what follows it. *)
Fixpoint span_digits (s : pystr) : pystr * pystr :=
  match s with
  | [] => ([], [])
  | c :: r =>
      if is_digit c then let (ds, rest) := span_digits r in (c :: ds, rest)
      else ([], s)
  end.

(** [number = [ minus ] int [ frac ] [ exp ]] *)
Definition parse_number (s : pystr) : option (pystr * pystr) :=
  let (sign, s1) :=
    match s with
    | c :: r => if N.eqb c 45 then ([c], r) else ([], s)
    | [] => ([], s)
    end in
  let (int_part, s2) := span_digits s1 in
  let int_ok :=
    match int_part with
    | [] => false
    | c :: ds => negb (N.eqb c 48) || match ds with [] => true | _ => false end
    end in
  if negb int_ok then None
  else
    let frac :=
      match s2 with
      | c :: r =>
          if N.eqb c 46 then
            let (ds, rest) := span_digits r in
            match ds with
            | [] => None
            | _ => Some (c :: ds, rest)
            end
          else Some ([], s2)
      | [] => Some ([], s2)
      end in
    match frac with
    | None => None
    | Some (frac_part, s3) =>
        let exp :=
          match s3 with
          | c :: r =>
              if N.eqb c 101 || N.eqb c 69 then
                let (esign, r1) :=
                  match r with
                  | c' :: r' =>
                      if N.eqb c' 43 || N.eqb c' 45 then ([c'], r') else ([], r)
                  | [] => ([], r)
                  end in
                let (ds, rest) := span_digits r1 in
                match ds with
                | [] => None
                | _ => Some (c :: esign ++ ds, rest)
                end
              else Some ([], s3)
          | [] => Some ([], s3)
          end in
        match exp with
        | None => None
        | Some (exp_part, s4) =>
            Some (sign ++ int_part ++ frac_part ++ exp_part, s4)
        end
    end.

(** [strip_prefix p s]: what follows the literal [p] at the head of [s]. *)
Fixpoint strip_prefix (p s : pystr) : option pystr :=
  match p, s with
  | [], _ => Some s
  | x :: p', y :: s' => if N.eqb x y then strip_prefix p' s' else None
  | _ :: _, [] => None
  end.

(** Recursive descent; [fuel] bounds the depth of the recursion, and every
    level of it consumes a character of the input. *)
Fixpoint parse_value (fuel : nat) (s : pystr) : option (json * pystr) :=
  match fuel with
  | O => None
  | S fuel' =>
      match skip_ws s with
      | [] => None
      | c :: r =>
          if N.eqb c 34 then
            match parse_chars r with
            | Some (t, rest) => Some (JString t, rest)
            | None => None
            end
          else if N.eqb c 91 then
            match skip_ws r with
            | [] => None
            | c' :: r' =>
                if N.eqb c' 93 then Some (JArray [], r')
                else
                  match parse_elements fuel' r with
                  | Some (items, rest) => Some (JArray items, rest)
                  | None => None
                  end
            end
          else if N.eqb c 123 then
            match skip_ws r with
            | [] => None
            | c' :: r' =>
                if N.eqb c' 125 then Some (JObject [], r')
                else
                  match parse_members fuel' r with
                  | Some (members, rest) => Some (JObject members, rest)
                  | None => None
                  end
            end
          else
            match strip_prefix (py "null") (c :: r) with
            | Some rest => Some (JNull, rest)
            | None =>
                match strip_prefix (py "true") (c :: r) with
                | Some rest => Some (JBool true, rest)
                | None =>
                    match strip_prefix (py "false") (c :: r) with
                    | Some rest => Some (JBool false, rest)
                    | None =>
                        match parse_number (c :: r) with
                        | Some (tok, rest) => Some (JNumber tok, rest)
                        | None => None
                        end
                    end
                end
            end
      end
  end

(** [value *( "," value ) "]"] *)
with parse_elements (fuel : nat) (s : pystr) : option (list json * pystr) :=
  match fuel with
  | O => None
  | S fuel' =>
      match parse_value fuel' s with
      | None => None
      | Some (v, r) =>
          match skip_ws r with
          | [] => None
          | c :: r' =>
              if N.eqb c 93 then Some ([v], r')
              else if N.eqb c 44 then
                match parse_elements fuel' r' with
                | Some (vs, rest) => Some (v :: vs, rest)
                | None => None
                end
              else None
          end
      end
  end

(** [member *( "," member ) "}"], [member = string ":" value] *)
with parse_members (fuel : nat) (s : pystr)
    : option (list (pystr * json) * pystr) :=
  match fuel with
  | O => None
  | S fuel' =>
      match skip_ws s with
      | [] => None
      | q :: r0 =>
          if N.eqb q 34 then
            match parse_chars r0 with
            | None => None
            | Some (k, r1) =>
                match skip_ws r1 with
                | [] => None
                | colon :: r2 =>
                    if N.eqb colon 58 then
                      match parse_value fuel' r2 with
                      | None => None
                      | Some (v, r3) =>
                          match skip_ws r3 with
                          | [] => None
                          | c :: r4 =>
                              if N.eqb c 125 then Some ([(k, v)], r4)
                              else if N.eqb c 44 then
                                match parse_members fuel' r4 with
                                | Some (ms, rest) => Some ((k, v) :: ms, rest)
                                | None => None
                                end
                              else None
                          end
                      end
                    else None
                end
            end
          else None
      end
  end.

(** A JSON text is one value, with nothing but whitespace after it. *)
Definition json_loads (s : pystr) : option json :=
  match parse_value (List.length s) s with
  | Some (v, rest) =>
      match skip_ws rest with
      | [] => Some v
      | _ :: _ => None
      end
  | None => None
  end.

(** The 16-bit units of a character: itself in the basic plane, a
    surrogate pair above it. *)
Definition utf16 (c : N) : pystr :=
  if N.ltb c 65536 then [c]
  else
    let n := (c - 65536)%N in
    [ N.lor 55296 (N.land (N.shiftr n 10) 1023); N.lor 56320 (N.land n 1023) ].

(** The JSON value that [json.dumps] writes for a Python value, when it
    writes one: [None] where [json.dumps] raises. *)
Fixpoint sequence_option {A} (l : list (option A)) : option (list A) :=
  match l with
  | [] => Some []
  | None :: _ => None
  | Some a :: l' =>
      match sequence_option l' with
      | Some l'' => Some (a :: l'')
      | None => None
      end
  end.

Fixpoint json_of (v : pyval) : option json :=
  match v with
  | PyNone => Some JNull
  | PyBool b => Some (JBool b)
  | PyStr s => Some (JString (flat_map utf16 s))
  | PyList l =>
      match sequence_option (map json_of l) with
      | Some js => Some (JArray js)
      | None => None
      end
  | PyDict d =>
      match sequence_option
              (map (fun kv =>
                      match json_of (snd kv) with
                      | Some j => Some (flat_map utf16 (fst kv), j)
                      | None => None
                      end) d) with
      | Some ms => Some (JObject ms)
      | None => None
      end
  | PyObject => None
  end.

(* ===================================================================== *)
(** ** Notions the properties are stated with *)
(* ===================================================================== *)

Definition is_creation (e : event) : bool :=
  match e with
  | EvMakedirs _ _ | EvOpen _ _ => true
  | _ => false
  end.

(** The permission bits a creation event gives (0 for the other events). *)
Definition event_mode (e : event) : Z :=
  match e with
  | EvMakedirs _ m | EvOpen _ m => m
  | _ => 0%Z
  end.

(** The dictionary that [log_modules] serializes: the snapshot with the
    inventory under ['modules']. *)
Definition log_record (w : world) : dict pyval :=
  dict_set (snapshot_info w) (py "modules")
           (PyDict (modules_dict (sys_modules w))).

(** The three states of the parallel runtime in which the rank is taken
    to be zero. *)
Definition mpi4py_not_loaded (w : world) : Prop :=
  dict_contains (sys_modules w) (py "mpi4py") = false.

Definition mpi_reports_finalized (w : world) : Prop :=
  exists m r,
    dict_get (sys_modules w) (py "mpi4py") = Some m
    /\ MPI m = Some (MPI_runtime r)
    /\ Is_finalized r = Ok true.

Definition mpi_reports_not_initialized (w : world) : Prop :=
  exists m r b,
    dict_get (sys_modules w) (py "mpi4py") = Some m
    /\ MPI m = Some (MPI_runtime r)
    /\ Is_finalized r = Ok b
    /\ Is_initialized r = Ok false.

(** A module with a concrete file-system origin: its [__file__] is a
    non-empty string. *)
Definition has_concrete_origin (m : module) : bool :=
  match __file__ m with
  | Some (PyStr (_ :: _)) => true
  | _ => false
  end.

(** The layout of the destination as the specification writes it:
    [<log root>/<year>/<month>/<day>/<job id>/<hostname>.<pid>.<HH.MM.SS.microseconds>]. *)
Definition spec_job_id (w : world) : pystr :=
  match dict_get (environ w) (py "COBALT_JOBID") with
  | Some v => v
  | None => py "no-ID"
  end.

Definition spec_log_path (w : world) : pystr :=
  LOGFILE_ROOT ++ py "/" ++ str_int (year (now w))
    ++ py "/" ++ str_int (month (now w))
    ++ py "/" ++ str_int (day (now w))
    ++ py "/" ++ spec_job_id w
    ++ py "/" ++ hostname w ++ py "." ++ str_int (pid w)
    ++ py "." ++ zero_pad 2 (hour (now w))
    ++ py "." ++ zero_pad 2 (minute (now w))
    ++ py "." ++ zero_pad 2 (second (now w))
    ++ py "." ++ zero_pad 6 (microsecond (now w)).

(** A string that neither is empty nor has a separator at either end. *)
Definition plain_component (s : pystr) : Prop :=
  s <> [] /\ startswith s sep = false /\ endswith s sep = false.


(** The recursion depth that parsing a value takes. *)
Fixpoint json_size (j : json) : nat :=
  match j with
  | JArray items => S (fold_right (fun x n => S (json_size x + n)) 0 items)
  | JObject members =>
      S (fold_right (fun kv n => S (json_size (snd kv) + n)) 0 members)
  | _ => 1
  end.

(** The first character of a JSON value that [json.dumps] writes. *)
Definition value_start (c : N) : bool :=
  N.eqb c 34 || N.eqb c 91 || N.eqb c 123
  || N.eqb c 110 || N.eqb c 116 || N.eqb c 102.

(** The recursion depth that parsing a sequence of values takes. *)
Definition items_size (js : list json) : nat :=
  fold_right (fun x n => S (json_size x + n)) 0 js.

Definition members_size (ms : list (pystr * json)) : nat :=
  fold_right (fun kv n => S (json_size (snd kv) + n)) 0 ms.

(** The text [t] is a rendering of the JSON value [j]: the parser reads
    [j] off the front of it, whatever follows. *)
Definition renders (t : pystr) (j : json) : Prop :=
  (forall fuel rest,
      json_size j <= fuel -> parse_value fuel (t ++ rest) = Some (j, rest))
  /\ json_size j < List.length t
  /\ exists c t', t = c :: t' /\ value_start c = true.

(** The text [item] is a rendering of the member [m] of an object: the
    key, [': '], the value. *)
Definition renders_member (item : pystr) (m : pystr * json) : Prop :=
  exists k tv,
    item = encode_basestring_ascii k ++ py ": " ++ tv
    /\ fst m = flat_map utf16 k
    /\ renders tv (snd m).

Unset Implicit Arguments.

(** Induction on Python values, through lists and dictionaries. *)
Section pyval_induction.
Variable P : pyval -> Prop.
Hypothesis HNone : P PyNone.
Hypothesis HBool : forall b, P (PyBool b).
Hypothesis HStr : forall s, P (PyStr s).
Hypothesis HList : forall l, Forall P l -> P (PyList l).
Hypothesis HDict : forall d, Forall (fun kv => P (snd kv)) d -> P (PyDict d).
Hypothesis HObject : P PyObject.

Fixpoint pyval_nested_ind (v : pyval) : P v :=
  match v with
  | PyNone => HNone
  | PyBool b => HBool b
  | PyStr s => HStr s
  | PyList l =>
      HList l
        ((fix go (l : list pyval) : Forall P l :=
            match l with
            | [] => Forall_nil P
            | x :: l' => Forall_cons x (pyval_nested_ind x) (go l')
            end) l)
  | PyDict d =>
      HDict d
        ((fix go (d : list (pystr * pyval))
            : Forall (fun kv => P (snd kv)) d :=
            match d with
            | [] => Forall_nil _
            | kv :: d' =>
                Forall_cons kv (pyval_nested_ind (snd kv)) (go d')
            end) d)
  | PyObject => HObject
  end.
End pyval_induction.

(** The events of [collect], spelled out: the calls made until the first
    one that raises. *)
Definition collect_events (w : world) : list event :=
  EvUmask 2 :: EvMakedirs (log_dir w) 509 ::
  match makedirs_outcome w (log_dir w) with
  | Some _ => []
  | None =>
      EvOpen (os_path_abspath (getcwd w) (log_path w)) 436 ::
      match open_outcome w (log_path w) with
      | Some _ => []
      | None =>
          match json_dumps (PyDict (log_record w)) with
          | Raise _ => []
          | Ok text =>
              if isEnabledFor_INFO w then
                map (fun h => EvWrite h (text ++ [10%N]))
                    (prior_handlers w
                       ++ [os_path_abspath (getcwd w) (log_path w)])
              else []
          end
      end
  end.

(** The result of [collect], spelled out. *)
Definition collect_result (w : world) : result unit :=
  match makedirs_outcome w (log_dir w) with
  | Some e => Raise e
  | None =>
      match open_outcome w (log_path w) with
      | Some e => Raise e
      | None =>
          match json_dumps (PyDict (log_record w)) with
          | Raise e => Raise e
          | Ok _ => Ok tt
          end
      end
  end.

(* ===================================================================== *)
(** ** Sample processes *)
(* ===================================================================== *)

(** The scenario of the specification: job id [12345], host [node07], pid
    [4242], shutdown at 2024-03-01 10:15:22.123456, no parallel runtime. *)
Definition example_now : datetime :=
  {| year := 2024; month := 3; day := 1;
     hour := 10; minute := 15; second := 22; microsecond := 123456 |}.

Definition example_modules : dict module :=
  [ (py "__main__", {| __file__ := Some (PyStr (py "/home/u/job.py")); MPI := None |});
    (py "sys", {| __file__ := None; MPI := None |});
    (py "ns_pkg", {| __file__ := Some PyNone; MPI := None |}) ].

Definition example_world (env : dict pystr) (sm : dict module)
    (mk op : option exn) : world :=
  {| environ := env;
     sys_modules := sm;
     sys_path := [PyStr (py "/usr/lib/python3.6")];
     sys_executable := PyStr (py "/usr/bin/python3");
     now := example_now;
     hostname := py "node07";
     pid := 4242;
     makedirs_outcome := fun _ => mk;
     open_outcome := fun _ => op;
     getcwd := py "/home/u";
     logging_disable := 0;
     logger_disabled := false;
     prior_handlers := [] |}.

Definition example_env : dict pystr :=
  [ (py "COBALT_JOBID", py "12345"); (py "HOME", py "/home/u") ].

Definition w_example : world :=
  example_world example_env example_modules None None.

Definition mpi_module (r : mpi_runtime) : module :=
  {| __file__ := Some (PyStr (py "/lib/mpi4py/__init__.py"));
     MPI := Some (MPI_runtime r) |}.

Definition st_default : proc_state := {| cur_umask := 18; trace := [] |}.

(** The line that the sample process writes. *)
Definition example_line : pystr :=
  Eval vm_compute in
    match json_dumps (PyDict (log_record w_example)) with
    | Ok text => text ++ [10%N]
    | Raise _ => []
    end.

(* ===================================================================== *)
(** ** Further notions *)
(* ===================================================================== *)

(** [json] has an encoder for the value: there is no [PyObject] in it. *)
Fixpoint encodable (v : pyval) : bool :=
  match v with
  | PyList l => forallb encodable l
  | PyDict d => forallb (fun kv => encodable (snd kv)) d
  | PyObject => false
  | _ => true
  end.

(** The digits of a decimal string, read back; reading stops at the first
    character that is not a digit. *)
Fixpoint uint_of_codes (s : pystr) : Decimal.uint :=
  match s with
  | [] => Decimal.Nil
  | c :: s' =>
      if N.eqb c 48 then Decimal.D0 (uint_of_codes s')
      else if N.eqb c 49 then Decimal.D1 (uint_of_codes s')
      else if N.eqb c 50 then Decimal.D2 (uint_of_codes s')
      else if N.eqb c 51 then Decimal.D3 (uint_of_codes s')
      else if N.eqb c 52 then Decimal.D4 (uint_of_codes s')
      else if N.eqb c 53 then Decimal.D5 (uint_of_codes s')
      else if N.eqb c 54 then Decimal.D6 (uint_of_codes s')
      else if N.eqb c 55 then Decimal.D7 (uint_of_codes s')
      else if N.eqb c 56 then Decimal.D8 (uint_of_codes s')
      else if N.eqb c 57 then Decimal.D9 (uint_of_codes s')
      else Decimal.Nil
  end.

(** [int(s)] for a string of decimal digits. *)
Definition int_of_digits (s : pystr) : N := N.of_uint (uint_of_codes s).

(** The time of day of a [datetime] has no negative field. *)
Definition time_fields_nonneg (d : datetime) : Prop :=
  (0 <= hour d /\ 0 <= minute d /\ 0 <= second d /\ 0 <= microsecond d)%Z.

(** A path component that [os.path.normpath] keeps as it is: not empty,
    without a separator, and neither ['.'] nor ['..']. *)
Definition plain_name (s : pystr) : Prop :=
  s <> [] /\ ~ In 47%N s /\ s <> dot /\ s <> dotdot.

(** The file of the handler that [DictLogger.__init__] creates. *)
Definition log_file (w : world) : pystr :=
  os_path_abspath (getcwd w) (log_path w).


Definition is_makedirs (e : event) : bool :=
  match e with EvMakedirs _ _ => true | _ => false end.

Definition is_open (e : event) : bool :=
  match e with EvOpen _ _ => true | _ => false end.

Definition is_write (e : event) : bool :=
  match e with EvWrite _ _ => true | _ => false end.

(** A string of the basic multilingual plane. *)
Definition bmp (s : pystr) : Prop := Forall (fun c => (c < 65536)%N) s.

(** The member [m] of a parsed object is the image of the entry [kv] of a
    Python dictionary. *)
Definition member_of (kv : pystr * pyval) (m : pystr * json) : Prop :=
  fst m = flat_map utf16 (fst kv) /\ json_of (snd kv) = Some (snd m).

(* ===================================================================== *)
(** * Properties *)
(* ===================================================================== *)


(** ** Strings and dictionaries *)

Lemma pystr_eqb_eq (a b : pystr) : pystr_eqb a b = true <-> a = b.
Proof.
  revert b; induction a as [|x a IH]; intros [|y b]; simpl;
    try (split; [discriminate | congruence]); try tauto.
  rewrite andb_true_iff, N.eqb_eq, IH.
  split; [intros [-> ->]; reflexivity | intros H; injection H; auto].
Qed.

Lemma pystr_eqb_refl (a : pystr) : pystr_eqb a a = true.
Proof. apply pystr_eqb_eq; reflexivity. Qed.

Lemma pystr_eqb_neq (a b : pystr) : a <> b -> pystr_eqb a b = false.
Proof.
  intros H; destruct (pystr_eqb a b) eqn:E; [|reflexivity].
  apply pystr_eqb_eq in E; contradiction.
Qed.

(** ** What [collect] and [inspect_and_log] do, step by step *)

Lemma emit_to_run (hs : list pystr) (msg : pystr) (st : proc_state) :
  emit_to hs msg st =
  (Ok tt,
   {| cur_umask := cur_umask st;
      trace := trace st ++ map (fun h => EvWrite h (msg ++ [10%N])) hs |}).
Proof.
  revert st. induction hs as [|h hs IH]; intros st.
  - cbn [emit_to map]. rewrite List.app_nil_r. destruct st; reflexivity.
  - cbn [emit_to map]. unfold bind, emit. rewrite IH.
    cbn [cur_umask trace]. rewrite <- app_assoc. reflexivity.
Qed.

Lemma collect_run (w : world) (st : proc_state) :
  collect w st =
  (collect_result w,
   {| cur_umask := 2; trace := trace st ++ collect_events w |}).
Proof.
  cbv beta iota zeta delta
    [collect collect_result collect_events DictLogger_init log_modules
     os_umask os_makedirs FileHandler logger_info bind lift ret
     _info _logger handlers cur_umask trace log_record].
  change (Z.land 2 511) with 2%Z.
  change (apply_umask MAKEDIRS_MODE 2) with 509%Z.
  destruct (makedirs_outcome w (log_dir w)) as [e|]; cbv beta iota zeta.
  - rewrite <- app_assoc; reflexivity.
  - destruct (open_outcome w (log_path w)) as [e|]; cbv beta iota zeta.
    + repeat rewrite <- app_assoc; reflexivity.
    + change (apply_umask OPEN_MODE 2) with 436%Z.
      destruct (json_dumps _) as [text|e];
        [|repeat rewrite <- app_assoc; reflexivity].
      destruct (isEnabledFor_INFO w).
      * rewrite emit_to_run. cbn [cur_umask trace].
        repeat rewrite <- app_assoc. reflexivity.
      * repeat rewrite <- app_assoc. reflexivity.
Qed.

Lemma inspect_and_log_run (w : world) (st : proc_state) :
  inspect_and_log w st =
  match is_mpi_rank_nonzero w with
  | Raise e => (Raise e, st)
  | Ok true => (Ok tt, st)
  | Ok false =>
      if truthy (disable_toggle (environ w)) then (Ok tt, st)
      else collect w st
  end.
Proof.
  unfold inspect_and_log, bind, lift, ret.
  destruct (is_mpi_rank_nonzero w) as [[|]|e]; try reflexivity.
  destruct (truthy (disable_toggle (environ w))); reflexivity.
Qed.

(** The events [inspect_and_log] adds: none, or those of [collect]. *)
Lemma inspect_and_log_events (w : world) (st : proc_state) :
  snd (inspect_and_log w st) = st
  \/ (is_mpi_rank_nonzero w = Ok false
      /\ truthy (disable_toggle (environ w)) = false
      /\ inspect_and_log w st = collect w st).
Proof.
  rewrite inspect_and_log_run.
  destruct (is_mpi_rank_nonzero w) as [[|]|e]; auto.
  destruct (truthy (disable_toggle (environ w))); auto.
Qed.

Lemma inspect_and_log_added (w : world) (st : proc_state) (evs : list event) :
  trace (snd (inspect_and_log w st)) = trace st ++ evs ->
  evs = []
  \/ (is_mpi_rank_nonzero w = Ok false
      /\ truthy (disable_toggle (environ w)) = false
      /\ evs = collect_events w).
Proof.
  intros H.
  destruct (inspect_and_log_events w st) as [E|(R & T & E)].
  - left. rewrite E in H.
    rewrite <- (List.app_nil_r (trace st)) in H at 1.
    apply app_inv_head in H; auto.
  - right. rewrite E, collect_run in H; simpl in H.
    apply app_inv_head in H; auto.
Qed.

Lemma collect_events_cases (w : world) (e : event) :
  In e (collect_events w) ->
  e = EvUmask 2
  \/ e = EvMakedirs (log_dir w) 509
  \/ (e = EvOpen (log_file w) 436
      /\ makedirs_outcome w (log_dir w) = None)
  \/ (makedirs_outcome w (log_dir w) = None
      /\ open_outcome w (log_path w) = None
      /\ isEnabledFor_INFO w = true
      /\ exists text h,
           json_dumps (PyDict (log_record w)) = Ok text
           /\ In h (prior_handlers w ++ [log_file w])
           /\ e = EvWrite h (text ++ [10%N])).
Proof.
  unfold collect_events. fold (log_file w). intros I.
  destruct I as [<-|[<-|I]]; auto.
  destruct (makedirs_outcome w (log_dir w)); [destruct I|].
  destruct I as [<-|I]; auto.
  destruct (open_outcome w (log_path w)); [destruct I|].
  destruct (json_dumps (PyDict (log_record w))) as [text|]; [|destruct I].
  destruct (isEnabledFor_INFO w); [|destruct I].
  apply in_map_iff in I as (h & <- & Ih).
  do 3 right. repeat split. exists text, h. auto.
Qed.

Lemma inspect_and_log_suppressed_by_toggle (w : world) (st : proc_state) :
  truthy (disable_toggle (environ w)) = true ->
  snd (inspect_and_log w st) = st.
Proof.
  intros T; rewrite inspect_and_log_run, T.
  destruct (is_mpi_rank_nonzero w) as [[|]|e]; reflexivity.
Qed.

Lemma disable_toggle_value (env : dict pystr) :
  truthy (disable_toggle env) =
  match dict_get env (py "DISABLE_PYMODULE_SNOOP") with
  | Some v => negb (pystr_eqb v [])
  | None => false
  end.
Proof.
  unfold disable_toggle, environ_get_or_False.
  destruct (dict_get env (py "DISABLE_PYMODULE_SNOOP")); reflexivity.
Qed.

Lemma registered_suppressed_by_toggle (env_at_import : dict pystr) :
  truthy (disable_toggle env_at_import) = true ->
  registered env_at_import = [].
Proof. intros T; unfold registered; rewrite T; reflexivity. Qed.

Lemma process_suppressed_by_toggle
    (env_at_import : dict pystr) (w : world) (st : proc_state) :
  truthy (disable_toggle env_at_import) = true
  \/ truthy (disable_toggle (environ w)) = true ->
  process env_at_import w st = st.
Proof.
  intros H. unfold process, registered.
  destruct (truthy (disable_toggle env_at_import)) eqn:T; simpl; auto.
  destruct H as [H|H]; [discriminate|].
  apply inspect_and_log_suppressed_by_toggle; assumption.
Qed.

(** ** The disable toggle *)

(** C1: when [DISABLE_PYMODULE_SNOOP] is truthy at import or when the
    shutdown callback runs, the process state is left as it was: no log
    file is opened, no directory is created and the umask is unchanged.
    At import nothing is registered; in the callback the check returns
    before any effect. *)
Theorem disable_toggle_no_effects
    (env_at_import : dict pystr) (w : world) (st : proc_state) :
  truthy (disable_toggle env_at_import) = true
  \/ truthy (disable_toggle (environ w)) = true ->
  process env_at_import w st = st
  /\ (truthy (disable_toggle env_at_import) = true ->
      registered env_at_import = [])
  /\ (truthy (disable_toggle (environ w)) = true ->
      snd (inspect_and_log w st) = st).
Proof.
  intros H. split; [|split].
  - apply process_suppressed_by_toggle; exact H.
  - apply registered_suppressed_by_toggle.
  - apply inspect_and_log_suppressed_by_toggle.
Qed.

Lemma disable_toggle_no_effects_witness :
  let env := [(py "DISABLE_PYMODULE_SNOOP", py "1")] in
  process env w_example st_default = st_default
  /\ process example_env
       (example_world env example_modules None None) st_default = st_default.
Proof.
  intros env. split.
  - destruct (disable_toggle_no_effects env w_example st_default) as [H _];
      [left; reflexivity | exact H].
  - destruct (disable_toggle_no_effects example_env
                (example_world env example_modules None None) st_default)
      as [H _]; [right; reflexivity | exact H].
Defined.

(** C10: truthiness of the toggle is string non-emptiness at both check
    sites.  With [DISABLE_PYMODULE_SNOOP] set to the empty string the
    callback is registered and, on rank zero, goes on to change the umask;
    with any non-empty value nothing is registered and the callback leaves
    the process state untouched. *)
Theorem toggle_truthiness_is_non_emptiness
    (w : world) (st : proc_state) (v : pystr) :
  dict_get (environ w) (py "DISABLE_PYMODULE_SNOOP") = Some v ->
  is_mpi_rank_nonzero w = Ok false ->
  (v = [] ->
     registered (environ w) = [inspect_and_log]
     /\ inspect_and_log w st = collect w st
     /\ exists rest,
          trace (snd (inspect_and_log w st)) = trace st ++ EvUmask 2 :: rest)
  /\ (v <> [] ->
     registered (environ w) = []
     /\ snd (inspect_and_log w st) = st
     /\ process (environ w) w st = st).
Proof.
  intros G R.
  assert (T : truthy (disable_toggle (environ w)) = negb (pystr_eqb v [])).
  { rewrite disable_toggle_value, G; reflexivity. }
  split; intros Hv.
  - subst v; simpl in T.
    assert (E : inspect_and_log w st = collect w st).
    { rewrite inspect_and_log_run, R, T; reflexivity. }
    split; [unfold registered; rewrite T; reflexivity|].
    split; [exact E|].
    rewrite E, collect_run; simpl.
    eexists; reflexivity.
  - rewrite (pystr_eqb_neq v [] Hv) in T; simpl in T.
    split; [apply registered_suppressed_by_toggle; exact T|].
    split; [apply inspect_and_log_suppressed_by_toggle; exact T|].
    apply process_suppressed_by_toggle; left; exact T.
Qed.

Lemma toggle_truthiness_is_non_emptiness_witness :
  let w v := example_world [(py "DISABLE_PYMODULE_SNOOP", v)]
               example_modules None None in
  (exists rest,
     trace (snd (inspect_and_log (w []) st_default)) = EvUmask 2 :: rest)
  /\ snd (inspect_and_log (w (py "0")) st_default) = st_default
  /\ snd (inspect_and_log (w (py "false")) st_default) = st_default.
Proof.
  intros w. split; [|split].
  - destruct (toggle_truthiness_is_non_emptiness (w []) st_default
                [] eq_refl eq_refl) as [H _].
    destruct (H eq_refl) as (_ & _ & rest & E).
    exists rest; exact E.
  - destruct (toggle_truthiness_is_non_emptiness (w (py "0")) st_default
                (py "0") eq_refl eq_refl) as [_ H].
    apply H; discriminate.
  - destruct (toggle_truthiness_is_non_emptiness (w (py "false")) st_default
                (py "false") eq_refl eq_refl) as [_ H].
    apply H; discriminate.
Defined.

(** ** Rank detection *)

(** C2: [is_mpi_rank_nonzero] returns [False], without raising, when
    [mpi4py] is not among the loaded modules, when the MPI runtime reports
    that it has been finalized, and when it reports that it has not been
    initialized. *)
Theorem rank_detection_fail_safe (w : world) :
  mpi4py_not_loaded w
  \/ mpi_reports_finalized w
  \/ mpi_reports_not_initialized w ->
  is_mpi_rank_nonzero w = Ok false.
Proof.
  unfold mpi4py_not_loaded, mpi_reports_finalized,
    mpi_reports_not_initialized, is_mpi_rank_nonzero.
  intros [H|[(m & r & G & A & F)|(m & r & b & G & A & F & I)]].
  - rewrite H. reflexivity.
  - unfold dict_contains. rewrite G, A, F. reflexivity.
  - unfold dict_contains. rewrite G, A, F, I. destruct b; reflexivity.
Qed.

Lemma rank_detection_fail_safe_witness :
  let finalized :=
    {| Is_finalized := Ok true; Is_initialized := Ok true;
       COMM_WORLD_Get_rank := Raise (MPIException 1) |} in
  let not_initialized :=
    {| Is_finalized := Ok false; Is_initialized := Ok false;
       COMM_WORLD_Get_rank := Raise (MPIException 1) |} in
  let w r := example_world example_env
               ((py "mpi4py", mpi_module r) :: example_modules) None None in
  is_mpi_rank_nonzero w_example = Ok false
  /\ is_mpi_rank_nonzero (w finalized) = Ok false
  /\ is_mpi_rank_nonzero (w not_initialized) = Ok false.
Proof.
  intros finalized not_initialized w. split; [|split].
  - apply (rank_detection_fail_safe w_example). left; reflexivity.
  - apply (rank_detection_fail_safe (w finalized)). right; left.
    exists (mpi_module finalized), finalized. repeat split.
  - apply (rank_detection_fail_safe (w not_initialized)). right; right.
    exists (mpi_module not_initialized), not_initialized, false. repeat split.
Defined.

Lemma inspect_and_log_not_suppressed (w : world) (st : proc_state) :
  is_mpi_rank_nonzero w = Ok false ->
  truthy (disable_toggle (environ w)) = false ->
  inspect_and_log w st =
  (collect_result w,
   {| cur_umask := 2; trace := trace st ++ collect_events w |}).
Proof.
  intros R T. rewrite inspect_and_log_run, R, T. apply collect_run.
Qed.

(** ** Permissions and the order of effects *)

(** Claim C3 fails on the mask [0o002]: the directory that the sample
    process creates is not other-writable. *)
Lemma other_writable_counterexample :
  exists e,
    In e (trace (snd (inspect_and_log w_example st_default)))
    /\ is_creation e = true
    /\ other_writable (event_mode e) = false.
Proof.
  exists (EvMakedirs (log_dir w_example) 509).
  split; [|split; reflexivity].
  rewrite (inspect_and_log_not_suppressed w_example _ eq_refl eq_refl).
  right; left; reflexivity.
Qed.

(** C3, amended: under the mask [0o002] that the collector sets, every
    directory it creates has mode [0o775] and every file mode [0o664]:
    group-writable, and not other-writable. *)
Theorem created_modes_group_writable
    (w : world) (st : proc_state) (evs : list event) (e : event) :
  trace (snd (inspect_and_log w st)) = trace st ++ evs ->
  In e evs ->
  is_creation e = true ->
  match e with
  | EvMakedirs _ m => m = apply_umask MAKEDIRS_MODE 2 /\ m = 509%Z
  | EvOpen _ m => m = apply_umask OPEN_MODE 2 /\ m = 436%Z
  | _ => False
  end
  /\ group_writable (event_mode e) = true
  /\ other_writable (event_mode e) = false.
Proof.
  intros H I C.
  destruct (inspect_and_log_added w st evs H) as [->|(_ & _ & ->)];
    [destruct I|].
  apply collect_events_cases in I.
  destruct I as [->|[->|[[-> _]|(_ & _ & _ & text & h & _ & _ & ->)]]];
    try discriminate; repeat split.
Qed.

Lemma created_modes_group_writable_witness :
  let e := EvOpen (log_path w_example) 436 in
  group_writable (event_mode e) = true
  /\ other_writable (event_mode e) = false.
Proof.
  intros e.
  refine (proj2 (created_modes_group_writable w_example st_default
                   (collect_events w_example) e _ _ _)).
  - rewrite (inspect_and_log_not_suppressed w_example _ eq_refl eq_refl).
    reflexivity.
  - right; right; left; reflexivity.
  - reflexivity.
Defined.

(** C9: in an invocation that is not suppressed, the umask change is the
    first effect: every [makedirs] call and every opening of the log file
    comes after it in the trace. *)
Theorem umask_before_creation
    (w : world) (st : proc_state) (evs : list event) :
  is_mpi_rank_nonzero w = Ok false ->
  truthy (disable_toggle (environ w)) = false ->
  trace (snd (inspect_and_log w st)) = trace st ++ evs ->
  (exists rest, evs = EvUmask 2 :: rest)
  /\ (forall pre e post,
        evs = pre ++ e :: post -> is_creation e = true ->
        In (EvUmask 2) pre).
Proof.
  intros R T H.
  rewrite inspect_and_log_run, R, T, collect_run in H; simpl in H.
  apply app_inv_head in H; subst evs.
  split; [unfold collect_events; eexists; reflexivity|].
  intros pre e post E C.
  destruct pre as [|x pre]; simpl in E; unfold collect_events in E;
    injection E as E1 E2; subst.
  - discriminate.
  - left; reflexivity.
Qed.

Lemma umask_before_creation_witness :
  exists rest,
    trace (snd (inspect_and_log w_example st_default)) = EvUmask 2 :: rest.
Proof.
  refine (proj1 (umask_before_creation w_example st_default
                   (collect_events w_example) eq_refl eq_refl _)).
  rewrite (inspect_and_log_not_suppressed w_example _ eq_refl eq_refl).
  reflexivity.
Defined.

(** ** Errors *)



(** ** The record: filtered environment and module inventory *)

Lemma log_record_eq (w : world) :
  log_record w =
  snapshot_info w ++ [(py "modules", PyDict (modules_dict (sys_modules w)))].
Proof. reflexivity. Qed.

Lemma dict_get_filter_keys {V} (P : pystr -> bool) (d : dict V) (k : pystr) :
  dict_get (filter (fun kv => P (fst kv)) d) k =
  if P k then dict_get d k else None.
Proof.
  induction d as [|[k' v] d IH]; simpl.
  - destruct (P k); reflexivity.
  - destruct (pystr_eqb k' k) eqn:E.
    + apply pystr_eqb_eq in E; subst k'.
      destruct (P k) eqn:Pk; simpl.
      * rewrite pystr_eqb_refl; reflexivity.
      * exact IH.
    + destruct (P k') eqn:Pk'; simpl; [rewrite E|]; exact IH.
Qed.

Lemma dict_get_map_values {V W} (f : V -> W) (d : dict V) (k : pystr) :
  dict_get (map (fun kv => (fst kv, f (snd kv))) d) k =
  option_map f (dict_get d k).
Proof.
  induction d as [|[k' v] d IH]; simpl; [reflexivity|].
  destruct (pystr_eqb k' k); [reflexivity | exact IH].
Qed.

Lemma dict_get_absent {V} (d : dict V) (k : pystr) :
  ~ In k (map fst d) -> dict_get d k = None.
Proof.
  induction d as [|[k' v] d IH]; simpl; intros H; [reflexivity|].
  destruct (pystr_eqb k' k) eqn:E.
  - apply pystr_eqb_eq in E; tauto.
  - apply IH; tauto.
Qed.

(** C7: the field [cobalt_envs] of the log record holds exactly the
    environment variables whose names start with [COBALT], each with its
    value; a variable whose name lacks the prefix is not in it. *)
Theorem cobalt_envs_exactly_prefixed (w : world) :
  exists d,
    dict_get (log_record w) (py "cobalt_envs") = Some (PyDict d)
    /\ forall k,
         dict_get d k =
         if startswith k (py "COBALT")
         then option_map PyStr (dict_get (environ w) k)
         else None.
Proof.
  eexists; split; [reflexivity|].
  intros k. rewrite dict_get_map_values. unfold cobalt_envs.
  rewrite (dict_get_filter_keys (fun k => startswith k (py "COBALT"))).
  destruct (startswith k (py "COBALT")); reflexivity.
Qed.

(** C4: the inventory is meant to hold the modules that have a concrete
    origin path, and the filter [hasattr(module, '__file__')] misses the
    modules whose [__file__] exists and is [None]: the sample process has
    the namespace package [ns_pkg], without a concrete origin, and its
    inventory lists it, with the value [None]. *)
Theorem inventory_lists_module_without_origin :
  exists m,
    dict_get (sys_modules w_example) (py "ns_pkg") = Some m
    /\ has_concrete_origin m = false
    /\ dict_get (modules_dict (sys_modules w_example)) (py "ns_pkg")
       = Some PyNone.
Proof.
  eexists; split; [reflexivity|]. split; reflexivity.
Qed.

(** What the comprehension computes: the modules that have an attribute
    [__file__], each with the value of the attribute. *)
Lemma inventory_exactly_modules_with_file (w : world) (name : pystr) :
  dict_wf (sys_modules w) ->
  dict_get (log_record w) (py "modules")
    = Some (PyDict (modules_dict (sys_modules w)))
  /\ dict_get (modules_dict (sys_modules w)) name =
     match dict_get (sys_modules w) name with
     | Some m => __file__ m
     | None => None
     end.
Proof.
  intros WF. split; [reflexivity|].
  unfold dict_wf in WF.
  induction (sys_modules w) as [|[k m] sm IH]; simpl; [reflexivity|].
  simpl in WF. inversion WF as [|? ? NI WF']; subst.
  specialize (IH WF').
  destruct (__file__ m) as [f|] eqn:F; simpl.
  - destruct (pystr_eqb k name); [symmetry; exact F | exact IH].
  - destruct (pystr_eqb k name) eqn:E; [|exact IH].
    apply pystr_eqb_eq in E; subst k.
    rewrite IH, (dict_get_absent sm name NI). symmetry; exact F.
Qed.

(** ** The destination path *)

Lemma startswith_sep (s : pystr) :
  startswith s sep = match s with c :: _ => N.eqb 47 c | [] => false end.
Proof.
  change sep with [47%N]. destruct s as [|c s]; [reflexivity|].
  destruct s; cbn [startswith]; apply andb_true_r.
Qed.

Lemma endswith_sep (s : pystr) :
  endswith s sep = match rev s with c :: _ => N.eqb 47 c | [] => false end.
Proof. unfold endswith. apply startswith_sep. Qed.

Lemma endswith_sep_app (a b : pystr) :
  b <> [] -> endswith (a ++ b) sep = endswith b sep.
Proof.
  intros H. rewrite !endswith_sep, rev_app_distr.
  destruct (rev b) as [|c r] eqn:E; [|reflexivity].
  apply (f_equal (@rev N)) in E. rewrite rev_involutive in E. contradiction.
Qed.

Lemma no_sep_plain (s : pystr) :
  s <> [] -> Forall (fun c => c <> 47%N) s -> plain_component s.
Proof.
  intros NE F. split; [exact NE|]. split.
  - rewrite startswith_sep. destruct s as [|c s]; [reflexivity|].
    inversion F; subst. apply N.eqb_neq; congruence.
  - rewrite endswith_sep. destruct (rev s) as [|c r] eqn:E; [reflexivity|].
    assert (I : In c s) by (apply in_rev; rewrite E; left; reflexivity).
    rewrite Forall_forall in F. apply N.eqb_neq. intros <-. exact (F _ I eq_refl).
Qed.

Lemma os_path_join_step (a b : pystr) (p : list pystr) :
  a <> [] -> endswith a sep = false -> startswith b sep = false ->
  os_path_join a (b :: p) = os_path_join (a ++ sep ++ b) p.
Proof.
  intros NE E S. simpl. rewrite S, E, (pystr_eqb_neq a [] NE). reflexivity.
Qed.

Lemma join_plain (a b : pystr) :
  plain_component b ->
  (a ++ sep ++ b) <> [] /\ endswith (a ++ sep ++ b) sep = false.
Proof.
  intros (NE & _ & E). split.
  - destruct a; discriminate.
  - rewrite app_assoc, endswith_sep_app; assumption.
Qed.

Lemma uint_codes_digits (d : Decimal.uint) :
  Forall (fun c => 48 <= c <= 57)%N (uint_codes d).
Proof. induction d; simpl; constructor; auto; lia. Qed.

Lemma str_N_nonempty (n : N) : str_N n <> [].
Proof.
  unfold str_N. destruct n as [|p]; [discriminate|].
  simpl. pose proof (DecimalPos.Unsigned.to_uint_nonnil p) as H.
  destruct (Pos.to_uint p); [contradiction | discriminate ..].
Qed.

Lemma str_int_plain (z : Z) : plain_component (str_int z).
Proof.
  apply no_sep_plain.
  - destruct z; simpl; try apply str_N_nonempty. discriminate.
  - assert (D : forall n, Forall (fun c => c <> 47%N) (str_N n)).
    { intros n. eapply Forall_impl; [|apply uint_codes_digits].
      simpl; intros; lia. }
    destruct z; simpl; try apply D. constructor; [discriminate | apply D].
Qed.

Lemma nzhead_head (d : Decimal.uint) :
  match Decimal.nzhead d with Decimal.D0 _ => False | _ => True end.
Proof. induction d; simpl; auto. Qed.

(** [str] of a positive integer is unpadded: digits, the first not [0]. *)
Lemma str_int_unpadded (z : Z) :
  (0 < z)%Z ->
  exists c rest,
    str_int z = c :: rest
    /\ (49 <= c <= 57)%N
    /\ Forall (fun c => 48 <= c <= 57)%N rest.
Proof.
  intros H. destruct z as [|p|p]; try lia. simpl. unfold str_N. simpl.
  pose proof (DecimalPos.Unsigned.to_uint_nonzero p) as NZ.
  pose proof (DecimalN.Unsigned.to_of (N.to_uint (Npos p))) as U.
  rewrite DecimalN.Unsigned.of_to in U. simpl in U.
  pose proof (nzhead_head (Pos.to_uint p)) as NH.
  pose proof (uint_codes_digits (Pos.to_uint p)) as D.
  unfold Decimal.unorm in U.
  destruct (Decimal.nzhead (Pos.to_uint p)) eqn:E;
    try contradiction; try (exfalso; apply NZ; exact U);
    rewrite U in D |- *; simpl in D |- *; inversion D; subst;
    do 2 eexists; (split; [reflexivity|]); (split; [lia | assumption]).
Qed.

Lemma fname_eq (w : world) :
  fname w =
  hostname w ++ py "." ++ str_int (pid w)
    ++ py "." ++ zero_pad 2 (hour (now w))
    ++ py "." ++ zero_pad 2 (minute (now w))
    ++ py "." ++ zero_pad 2 (second (now w))
    ++ py "." ++ zero_pad 6 (microsecond (now w)).
Proof.
  unfold fname.
  change (strftime (now w) (py "%H.%M.%S.%f"))
    with (zero_pad 2 (hour (now w)) ++ py "." ++ zero_pad 2 (minute (now w))
          ++ py "." ++ zero_pad 2 (second (now w))
          ++ py "." ++ zero_pad 6 (microsecond (now w)) ++ []).
  rewrite List.app_nil_r.
  change (str_format (py "{}.{}.{}") ?l) with
    (hostname w ++ py "." ++ str_int (pid w) ++ py "." ++
       (zero_pad 2 (hour (now w)) ++ py "." ++ zero_pad 2 (minute (now w))
        ++ py "." ++ zero_pad 2 (second (now w))
        ++ py "." ++ zero_pad 6 (microsecond (now w))) ++ []).
  rewrite List.app_nil_r. reflexivity.
Qed.

Lemma LOGFILE_ROOT_eq :
  LOGFILE_ROOT = py "/projects/datascience/PyModuleSnooper/log".
Proof. reflexivity. Qed.

Lemma startswith_sep_app (a b : pystr) :
  startswith a sep = false -> startswith b sep = false ->
  startswith (a ++ b) sep = false.
Proof.
  rewrite !startswith_sep. destruct a as [|c a]; simpl; auto.
Qed.

(** Claim C5 fails on a job id that starts with the separator:
    [os.path.join] then discards the log root and the date. *)
Lemma absolute_job_id_counterexample :
  let w := example_world [(py "COBALT_JOBID", py "/scratch/me")]
             example_modules None None in
  log_path w = py "/scratch/me/node07.4242.10.15.22.123456"
  /\ log_path w <> spec_log_path w.
Proof.
  intros w. split; [reflexivity|].
  intros H. vm_compute in H. discriminate H.
Qed.

(** C5, amended: when the job id is not empty and has no ['/'] at either
    end, and the host name does not start with ['/'], the destination is
    [<log root>/<year>/<month>/<day>/<job id>/<hostname>.<pid>.<HH.MM.SS.microseconds>]
    with year, month and day written by [str], unpadded, and the job id the
    value of [COBALT_JOBID], or ["no-ID"] when the variable is absent. *)
Theorem log_path_layout (w : world) :
  job_id w <> [] ->
  startswith (job_id w) sep = false ->
  endswith (job_id w) sep = false ->
  startswith (hostname w) sep = false ->
  log_path w = spec_log_path w
  /\ (dict_get (environ w) (py "COBALT_JOBID") = None ->
      job_id w = py "no-ID")
  /\ (forall z, (0 < z)%Z ->
      exists c rest,
        str_int z = c :: rest
        /\ (49 <= c <= 57)%N
        /\ Forall (fun c => 48 <= c <= 57)%N rest).
Proof.
  intros JN JS JE HS. split.
  2:{ split; [|exact str_int_unpadded].
      intros A. unfold job_id, environ_get. rewrite A. reflexivity. }
  assert (J : job_id w = spec_job_id w) by reflexivity.
  pose proof (str_int_plain (year (now w))) as Y.
  pose proof (str_int_plain (month (now w))) as Mo.
  pose proof (str_int_plain (day (now w))) as D.
  assert (R : LOGFILE_ROOT <> [] /\ endswith LOGFILE_ROOT sep = false).
  { split; [discriminate | reflexivity]. }
  unfold log_path, log_dir.
  destruct R as [R1 R2].
  rewrite (os_path_join_step _ _ _ R1 R2 (proj1 (proj2 Y))).
  destruct (join_plain LOGFILE_ROOT _ Y) as [A1 A2].
  rewrite (os_path_join_step _ _ _ A1 A2 (proj1 (proj2 Mo))).
  destruct (join_plain (LOGFILE_ROOT ++ sep ++ str_int (year (now w))) _ Mo)
    as [B1 B2].
  rewrite (os_path_join_step _ _ _ B1 B2 (proj1 (proj2 D))).
  destruct (join_plain
              ((LOGFILE_ROOT ++ sep ++ str_int (year (now w)))
                 ++ sep ++ str_int (month (now w))) _ D) as [C1 C2].
  rewrite (os_path_join_step _ _ _ C1 C2 JS).
  destruct (join_plain
              (((LOGFILE_ROOT ++ sep ++ str_int (year (now w)))
                  ++ sep ++ str_int (month (now w)))
                 ++ sep ++ str_int (day (now w))) (job_id w)
              (conj JN (conj JS JE))) as [E1 E2].
  change (os_path_join ?a []) with a.
  assert (FS : startswith (fname w) sep = false).
  { rewrite fname_eq. apply startswith_sep_app; [exact HS | reflexivity]. }
  rewrite (os_path_join_step _ _ _ E1 E2 FS).
  cbn [os_path_join].
  rewrite fname_eq, J. unfold spec_log_path. change sep with (py "/").
  repeat rewrite <- app_assoc. reflexivity.
Qed.

Lemma log_path_layout_witness :
  log_path w_example
  = py "/projects/datascience/PyModuleSnooper/log/2024/3/1/12345/node07.4242.10.15.22.123456"
  /\ log_path (example_world [] example_modules None None)
     = py "/projects/datascience/PyModuleSnooper/log/2024/3/1/no-ID/node07.4242.10.15.22.123456".
Proof.
  split.
  - refine (eq_trans
              (proj1 (log_path_layout w_example _ eq_refl eq_refl eq_refl)) _);
      [discriminate | reflexivity].
  - refine (eq_trans
              (proj1 (log_path_layout
                        (example_world [] example_modules None None)
                        _ eq_refl eq_refl eq_refl)) _);
      [discriminate | reflexivity].
Defined.

(** ** The serialized record: a single printable line *)

Lemma sequence_result_map {A B} (f : A -> result B) (l : list A)
    (items : list B) :
  sequence_result (map f l) = Ok items ->
  Forall2 (fun a b => f a = Ok b) l items.
Proof.
  revert items; induction l as [|a l IH]; simpl; intros items H.
  - injection H as <-; constructor.
  - destruct (f a) as [b|e] eqn:F; [|discriminate].
    destruct (sequence_result (map f l)) as [bs|e]; [|discriminate].
    injection H as <-. constructor; auto.
Qed.


Lemma land_15_lt (x : N) : (N.land x 15 < 16)%N.
Proof.
  change 15%N with (N.ones 4). rewrite N.land_ones.
  apply N.mod_lt; discriminate.
Qed.

Lemma land_1023_lt (x : N) : (N.land x 1023 < 1024)%N.
Proof.
  change 1023%N with (N.ones 10). rewrite N.land_ones.
  apply N.mod_lt; discriminate.
Qed.

Lemma shiftr_12_lt (n : N) : (n < 65536)%N -> (N.shiftr n 12 < 16)%N.
Proof.
  intros H. rewrite N.shiftr_div_pow2.
  apply N.Div0.div_lt_upper_bound. exact H.
Qed.

Lemma lor_lt_65536 (a b : N) :
  (a < 65536)%N -> (b < 65536)%N -> (N.lor a b < 65536)%N.
Proof.
  intros Ha Hb.
  destruct (N.eq_dec (N.lor a b) 0) as [E|NE]; [rewrite E; reflexivity|].
  change 65536%N with (2 ^ 16)%N.
  apply N.log2_lt_pow2; [lia|].
  rewrite N.log2_lor. apply N.max_lub_lt.
  - destruct (N.eq_dec a 0) as [->|Na]; [reflexivity|].
    apply N.log2_lt_pow2; [lia | exact Ha].
  - destruct (N.eq_dec b 0) as [->|Nb]; [reflexivity|].
    apply N.log2_lt_pow2; [lia | exact Hb].
Qed.

Lemma high_surrogate_lt (x : N) :
  (N.lor 55296 (N.land x 1023) < 65536)%N.
Proof.
  apply lor_lt_65536; [reflexivity|]. pose proof (land_1023_lt x); lia.
Qed.

Lemma low_surrogate_lt (x : N) :
  (N.lor 56320 (N.land x 1023) < 65536)%N.
Proof.
  apply lor_lt_65536; [reflexivity|]. pose proof (land_1023_lt x); lia.
Qed.









(** ** The serialized record: what the parser reads back *)

Lemma hex_value_hex_digit (n : N) :
  (n < 16)%N -> hex_value (hex_digit n) = Some n.
Proof.
  intros H. unfold hex_value, hex_digit, is_digit.
  destruct (N.ltb_spec n 10) as [L|L].
  - replace (N.leb 48 (48 + n) && N.leb (48 + n) 57) with true.
    + f_equal; lia.
    + symmetry; apply andb_true_iff; split; apply N.leb_le; lia.
  - replace (N.leb 48 (87 + n) && N.leb (87 + n) 57) with false.
    + replace (N.leb 97 (87 + n) && N.leb (87 + n) 102) with true.
      * f_equal; lia.
      * symmetry; apply andb_true_iff; split; apply N.leb_le; lia.
    + symmetry; apply andb_false_iff; right; apply N.leb_gt; lia.
Qed.

Lemma hex4_value (n : N) :
  (n < 65536)%N ->
  (4096 * N.shiftr n 12 + 256 * N.land (N.shiftr n 8) 15
   + 16 * N.land (N.shiftr n 4) 15 + N.land n 15 = n)%N.
Proof.
  intros H. change 15%N with (N.ones 4).
  rewrite !N.land_ones, !N.shiftr_div_pow2.
  change (2 ^ 12)%N with 4096%N. change (2 ^ 8)%N with 256%N.
  change (2 ^ 4)%N with 16%N.
  pose proof (N.div_mod n 16 ltac:(discriminate)) as E0.
  pose proof (N.div_mod (n / 16) 16 ltac:(discriminate)) as E1.
  pose proof (N.div_mod (n / 256) 16 ltac:(discriminate)) as E2.
  pose proof (N.mod_lt n 16 ltac:(discriminate)).
  pose proof (N.mod_lt (n / 16) 16 ltac:(discriminate)).
  pose proof (N.mod_lt (n / 256) 16 ltac:(discriminate)).
  assert (D1 : (n / 16 / 16 = n / 256)%N)
    by (rewrite N.Div0.div_div; reflexivity).
  assert (D2 : (n / 256 / 16 = n / 4096)%N)
    by (rewrite N.Div0.div_div; reflexivity).
  rewrite D1 in E1. rewrite D2 in E2. lia.
Qed.

Lemma parse_chars_unicode (h1 h2 h3 h4 : N) (r : pystr) :
  parse_chars (92 :: 117 :: h1 :: h2 :: h3 :: h4 :: r)%N =
  match hex_value h1, hex_value h2, hex_value h3, hex_value h4 with
  | Some a, Some b, Some c', Some d =>
      match parse_chars r with
      | Some (t, rest) => Some ((4096 * a + 256 * b + 16 * c' + d)%N :: t, rest)
      | None => None
      end
  | _, _, _, _ => None
  end.
Proof. reflexivity. Qed.

Lemma parse_chars_escape4 (n : N) (r t rest : pystr) :
  (n < 65536)%N ->
  parse_chars r = Some (t, rest) ->
  parse_chars (py "\u" ++ hex4 n ++ r) = Some (n :: t, rest).
Proof.
  intros H P.
  change (py "\u" ++ hex4 n ++ r)
    with (92 :: 117 :: hex_digit (N.shiftr n 12)
            :: hex_digit (N.land (N.shiftr n 8) 15)
            :: hex_digit (N.land (N.shiftr n 4) 15)
            :: hex_digit (N.land n 15) :: r)%N.
  rewrite parse_chars_unicode.
  rewrite !hex_value_hex_digit by auto using land_15_lt, shiftr_12_lt.
  rewrite P, hex4_value by exact H. reflexivity.
Qed.

Lemma parse_chars_plain (c : N) (r : pystr) :
  N.eqb c 34 = false -> N.eqb c 92 = false -> N.ltb c 32 = false ->
  parse_chars (c :: r) =
  match parse_chars r with
  | Some (t, rest) => Some (c :: t, rest)
  | None => None
  end.
Proof. intros A B C. cbn [parse_chars]. rewrite A, B, C. reflexivity. Qed.

Lemma parse_chars_encode_char (c : N) (r t rest : pystr) :
  parse_chars r = Some (t, rest) ->
  parse_chars (encode_char c ++ r) = Some (utf16 c ++ t, rest).
Proof.
  intros P. unfold encode_char.
  destruct (needs_escape c) eqn:NE.
  - unfold escape_char.
    destruct (N.eqb_spec c 92) as [->|N92];
      [cbn; rewrite P; reflexivity|].
    destruct (N.eqb_spec c 34) as [->|N34];
      [cbn; rewrite P; reflexivity|].
    destruct (N.eqb_spec c 8) as [->|N8];
      [cbn; rewrite P; reflexivity|].
    destruct (N.eqb_spec c 12) as [->|N12];
      [cbn; rewrite P; reflexivity|].
    destruct (N.eqb_spec c 10) as [->|N10];
      [cbn; rewrite P; reflexivity|].
    destruct (N.eqb_spec c 13) as [->|N13];
      [cbn; rewrite P; reflexivity|].
    destruct (N.eqb_spec c 9) as [->|N9];
      [cbn; rewrite P; reflexivity|].
    unfold utf16.
    destruct (N.ltb_spec c 65536) as [L|L].
    + rewrite <- app_assoc. apply parse_chars_escape4; assumption.
    + cbv zeta. repeat rewrite <- app_assoc.
      apply parse_chars_escape4; [apply high_surrogate_lt|].
      apply parse_chars_escape4; [apply low_surrogate_lt | exact P].
  - unfold needs_escape in NE.
    apply orb_false_iff in NE as [NE R].
    apply orb_false_iff in NE as [N92 N34].
    apply negb_false_iff in R. apply andb_true_iff in R as [A B].
    apply N.leb_le in A, B.
    unfold utf16. destruct (N.ltb_spec c 65536) as [L|L]; [|lia].
    cbn [app]. rewrite parse_chars_plain, P; auto.
    apply N.ltb_ge; exact A.
Qed.

Lemma parse_chars_encoded (s rest : pystr) :
  parse_chars (flat_map encode_char s ++ 34%N :: rest)
  = Some (flat_map utf16 s, rest).
Proof.
  induction s as [|c s IH]; [reflexivity|].
  cbn [flat_map]. rewrite <- app_assoc.
  apply parse_chars_encode_char. exact IH.
Qed.

Lemma value_start_not_ws (c : N) :
  value_start c = true ->
  is_ws c = false /\ N.eqb c 93 = false /\ N.eqb c 125 = false.
Proof.
  unfold value_start. rewrite !orb_true_iff, !N.eqb_eq.
  intros [[[[[->| ->]| ->]| ->]| ->]| ->]; repeat split.
Qed.

Lemma parse_value_space (fuel : nat) (s : pystr) :
  parse_value fuel (32%N :: s) = parse_value fuel s.
Proof. destruct fuel; reflexivity. Qed.

Lemma parse_elements_space (fuel : nat) (s : pystr) :
  parse_elements fuel (32%N :: s) = parse_elements fuel s.
Proof.
  destruct fuel; [reflexivity|].
  cbn [parse_elements]. rewrite parse_value_space. reflexivity.
Qed.

Lemma parse_members_space (fuel : nat) (s : pystr) :
  parse_members fuel (32%N :: s) = parse_members fuel s.
Proof. destruct fuel; reflexivity. Qed.

Lemma skip_ws_start (c : N) (r : pystr) :
  is_ws c = false -> skip_ws (c :: r) = c :: r.
Proof. intros H. cbn [skip_ws]. rewrite H. reflexivity. Qed.

Lemma renders_literal (t : pystr) (j : json) :
  json_size j = 1 ->
  (forall fuel rest, parse_value (S fuel) (t ++ rest) = Some (j, rest)) ->
  2 <= List.length t ->
  (exists c t', t = c :: t' /\ value_start c = true) ->
  renders t j.
Proof.
  intros S1 P L H. split; [|split; [lia | exact H]].
  intros fuel rest F. destruct fuel as [|fuel]; [lia|]. apply P.
Qed.

Lemma renders_string (s : pystr) :
  renders (encode_basestring_ascii s) (JString (flat_map utf16 s)).
Proof.
  apply renders_literal.
  - reflexivity.
  - intros fuel rest. unfold encode_basestring_ascii.
    cbn [app]. rewrite <- app_assoc. cbn [app].
    change (parse_value (S fuel) (34%N :: ?r))
      with (match parse_chars r with
            | Some (t, rest) => Some (JString t, rest)
            | None => None
            end).
    rewrite parse_chars_encoded. reflexivity.
  - unfold encode_basestring_ascii. cbn [List.length].
    rewrite length_app. cbn [List.length]. lia.
  - unfold encode_basestring_ascii. do 2 eexists; split; reflexivity.
Qed.

Lemma str_join_cons2 (sp t t' : pystr) (l : list pystr) :
  str_join sp (t :: t' :: l) = t ++ sp ++ str_join sp (t' :: l).
Proof. reflexivity. Qed.

Lemma items_size_le_length (items : list pystr) (js : list json) :
  Forall2 renders items js ->
  items_size js <= List.length (str_join (py ", ") items).
Proof.
  induction 1 as [|t j items js R F IH]; [apply Nat.le_refl|].
  destruct R as (_ & L & _).
  destruct items as [|t' items].
  - inversion F; subst. cbn. lia.
  - rewrite str_join_cons2, !length_app.
    cbn [items_size fold_right] in IH |- *. fold (items_size js). lia.
Qed.

Lemma members_size_le_length (items : list pystr)
    (ms : list (pystr * json)) :
  Forall2 renders_member items ms ->
  members_size ms <= List.length (str_join (py ", ") items).
Proof.
  induction 1 as [|t m items ms R F IH]; [apply Nat.le_refl|].
  destruct R as (k & tv & -> & _ & _ & L & _).
  assert (L' : json_size (snd m)
               < List.length (encode_basestring_ascii k ++ py ": " ++ tv)).
  { rewrite !length_app. lia. }
  destruct items as [|t' items].
  - inversion F; subst. cbn [str_join members_size fold_right]. lia.
  - rewrite str_join_cons2, length_app.
    cbn [members_size fold_right] in IH |- *. fold (members_size ms).
    rewrite (length_app (py ", ")). lia.
Qed.

Lemma parse_elements_join (items : list pystr) (js : list json) :
  Forall2 renders items js ->
  items <> [] ->
  forall fuel rest,
    items_size js <= fuel ->
    parse_elements fuel (str_join (py ", ") items ++ 93%N :: rest)
    = Some (js, rest).
Proof.
  induction 1 as [|t j items js R F IH]; [congruence|].
  intros _ fuel rest Sz.
  cbn [items_size fold_right] in Sz. fold (items_size js) in Sz.
  destruct fuel as [|fuel]; [lia|].
  destruct R as (P & _ & _).
  cbn [parse_elements].
  destruct items as [|t' items].
  - inversion F; subst.
    cbn [str_join]. rewrite P by lia. reflexivity.
  - rewrite str_join_cons2, <- !app_assoc, P by lia.
    change (py ", " ++ ?r) with (44%N :: 32%N :: r).
    rewrite skip_ws_start by reflexivity.
    change (N.eqb 44 93) with false. change (N.eqb 44 44) with true.
    cbv iota. rewrite parse_elements_space, IH by (congruence || lia).
    reflexivity.
Qed.

Lemma parse_members_join (items : list pystr) (ms : list (pystr * json)) :
  Forall2 renders_member items ms ->
  items <> [] ->
  forall fuel rest,
    members_size ms <= fuel ->
    parse_members fuel (str_join (py ", ") items ++ 125%N :: rest)
    = Some (ms, rest).
Proof.
  induction 1 as [|t m items ms R F IH]; [congruence|].
  intros _ fuel rest Sz.
  cbn [members_size fold_right] in Sz. fold (members_size ms) in Sz.
  destruct fuel as [|fuel]; [lia|].
  destruct R as (k & tv & -> & K & P & _ & _).
  destruct m as [mk mv]. cbn [fst snd] in *. subst mk.
  assert (Step : forall r,
    parse_members (S fuel)
      ((encode_basestring_ascii k ++ py ": " ++ tv) ++ r) =
    match skip_ws r with
    | [] => None
    | c :: r4 =>
        if N.eqb c 125 then Some ([(flat_map utf16 k, mv)], r4)
        else if N.eqb c 44 then
          match parse_members fuel r4 with
          | Some (ms', rest') => Some ((flat_map utf16 k, mv) :: ms', rest')
          | None => None
          end
        else None
    end).
  { intros r. unfold encode_basestring_ascii.
    cbn [app]. rewrite <- !app_assoc. cbn [app].
    cbn [parse_members]. rewrite skip_ws_start by reflexivity.
    change (N.eqb 34 34) with true. cbv iota.
    rewrite parse_chars_encoded.
    change (py ": " ++ ?x) with (58%N :: 32%N :: x).
    rewrite skip_ws_start by reflexivity.
    change (N.eqb 58 58) with true. cbv iota.
    rewrite parse_value_space, P by lia. reflexivity. }
  destruct items as [|t' items].
  - inversion F; subst. cbn [str_join]. rewrite Step. reflexivity.
  - rewrite str_join_cons2.
    rewrite <- (app_assoc (encode_basestring_ascii k ++ py ": " ++ tv)
                  (py ", " ++ str_join (py ", ") (t' :: items))
                  (125%N :: rest)).
    rewrite Step.
    rewrite <- (app_assoc (py ", ")).
    change (py ", " ++ ?r) with (44%N :: 32%N :: r).
    rewrite skip_ws_start by reflexivity.
    change (N.eqb 44 125) with false. change (N.eqb 44 44) with true.
    cbv iota. rewrite parse_members_space, IH by (congruence || lia).
    reflexivity.
Qed.

Lemma parse_value_array (fuel : nat) (s : pystr) (c : N) (r : pystr) :
  s = c :: r -> is_ws c = false -> N.eqb c 93 = false ->
  parse_value (S fuel) (91%N :: s) =
  match parse_elements fuel s with
  | Some (items, rest) => Some (JArray items, rest)
  | None => None
  end.
Proof.
  intros -> W B. cbn [parse_value]. rewrite skip_ws_start by reflexivity.
  change (N.eqb 91 34) with false. change (N.eqb 91 91) with true.
  cbv iota. rewrite skip_ws_start by exact W. rewrite B. reflexivity.
Qed.

Lemma parse_value_object (fuel : nat) (s : pystr) (c : N) (r : pystr) :
  s = c :: r -> is_ws c = false -> N.eqb c 125 = false ->
  parse_value (S fuel) (123%N :: s) =
  match parse_members fuel s with
  | Some (members, rest) => Some (JObject members, rest)
  | None => None
  end.
Proof.
  intros -> W B. cbn [parse_value]. rewrite skip_ws_start by reflexivity.
  change (N.eqb 123 34) with false. change (N.eqb 123 91) with false.
  change (N.eqb 123 123) with true.
  cbv iota. rewrite skip_ws_start by exact W. rewrite B. reflexivity.
Qed.

Lemma renders_array (items : list pystr) (js : list json) :
  Forall2 renders items js ->
  renders (py "[" ++ str_join (py ", ") items ++ py "]") (JArray js).
Proof.
  intros F. split; [|split].
  - intros fuel rest Sz.
    change (json_size (JArray js)) with (S (items_size js)) in Sz.
    destruct fuel as [|fuel]; [lia|].
    change (py "[" ++ ?x) with (91%N :: x).
    rewrite <- app_comm_cons, <- app_assoc.
    change (py "]" ++ rest) with (93%N :: rest).
    destruct F as [|t j items js R F].
    + reflexivity.
    + assert (E : parse_elements fuel
                    (str_join (py ", ") (t :: items) ++ 93%N :: rest)
                  = Some (j :: js, rest)).
      { apply parse_elements_join; [constructor; assumption | congruence | lia]. }
      destruct R as (_ & _ & c & t0 & -> & V).
      apply value_start_not_ws in V as (W & B & _).
      match goal with
      | |- parse_value _ (_ :: ?s) = _ =>
          assert (H : exists r, s = c :: r)
            by (destruct items; eexists; reflexivity);
          destruct H as [r H];
          rewrite (parse_value_array fuel s c r H W B)
      end.
      rewrite E. reflexivity.
  - change (json_size (JArray js)) with (S (items_size js)).
    pose proof (items_size_le_length items js F).
    rewrite !length_app.
    change (List.length (py "[")) with 1. change (List.length (py "]")) with 1.
    lia.
  - do 2 eexists; split; reflexivity.
Qed.

Lemma renders_object (items : list pystr) (ms : list (pystr * json)) :
  Forall2 renders_member items ms ->
  renders (py "{" ++ str_join (py ", ") items ++ py "}") (JObject ms).
Proof.
  intros F. split; [|split].
  - intros fuel rest Sz.
    change (json_size (JObject ms)) with (S (members_size ms)) in Sz.
    destruct fuel as [|fuel]; [lia|].
    change (py "{" ++ ?x) with (123%N :: x).
    rewrite <- app_comm_cons, <- app_assoc.
    change (py "}" ++ rest) with (125%N :: rest).
    destruct F as [|t m items ms R F].
    + reflexivity.
    + assert (E : parse_members fuel
                    (str_join (py ", ") (t :: items) ++ 125%N :: rest)
                  = Some (m :: ms, rest)).
      { apply parse_members_join; [constructor; assumption | congruence | lia]. }
      destruct R as (k & tv & -> & _ & _).
      match goal with
      | |- parse_value _ (_ :: ?s) = _ =>
          assert (H : exists r, s = 34%N :: r)
            by (destruct items; eexists; reflexivity);
          destruct H as [r H];
          rewrite (parse_value_object fuel s 34%N r H eq_refl eq_refl)
      end.
      rewrite E. reflexivity.
  - change (json_size (JObject ms)) with (S (members_size ms)).
    pose proof (members_size_le_length items ms F).
    rewrite !length_app.
    change (List.length (py "{")) with 1. change (List.length (py "}")) with 1.
    lia.
  - do 2 eexists; split; reflexivity.
Qed.

Lemma sequence_option_map {A B} (f : A -> option B) (l : list A)
    (js : list B) :
  Forall2 (fun a b => f a = Some b) l js ->
  sequence_option (map f l) = Some js.
Proof.
  induction 1 as [|a b l js H F IH]; [reflexivity|].
  cbn [map sequence_option]. rewrite H, IH. reflexivity.
Qed.

Lemma json_dumps_renders (v : pyval) :
  forall t, json_dumps v = Ok t ->
  exists j, json_of v = Some j /\ renders t j.
Proof.
  induction v as [| b | s | l IH | d IH |] using pyval_nested_ind;
    intros t H.
  - injection H as <-. exists JNull. split; [reflexivity|].
    apply renders_literal; [reflexivity | reflexivity | cbn; lia |].
    do 2 eexists; split; reflexivity.
  - exists (JBool b). split; [reflexivity|].
    destruct b; injection H as <-;
      (apply renders_literal; [reflexivity | reflexivity | cbn; lia |]);
      do 2 eexists; split; reflexivity.
  - injection H as <-. eexists; split; [reflexivity|]. apply renders_string.
  - cbn [json_dumps] in H.
    destruct (sequence_result (map json_dumps l)) as [items|e] eqn:Q;
      [|discriminate].
    injection H as <-. apply sequence_result_map in Q.
    assert (X : exists js,
               Forall2 (fun v j => json_of v = Some j) l js
               /\ Forall2 renders items js).
    { clear -IH Q. induction Q as [|v t l items Hv Q IHQ].
      - exists []. split; constructor.
      - inversion IH as [|? ? P1 P2]; subst.
        destruct (P1 t Hv) as (j & J & R).
        destruct (IHQ P2) as (js & A & B).
        exists (j :: js). split; constructor; assumption. }
    destruct X as (js & A & B).
    exists (JArray js). split.
    + cbn [json_of]. rewrite (sequence_option_map json_of l js A). reflexivity.
    + exact (renders_array items js B).
  - cbn [json_dumps] in H.
    match type of H with
    | match sequence_result (map ?f d) with _ => _ end = _ =>
        destruct (sequence_result (map f d)) as [items|e] eqn:Q;
          [|discriminate]
    end.
    injection H as <-. apply sequence_result_map in Q.
    assert (X : exists ms,
               Forall2 (fun kv m =>
                          match json_of (snd kv) with
                          | Some j => Some (flat_map utf16 (fst kv), j)
                          | None => None
                          end = Some m) d ms
               /\ Forall2 renders_member items ms).
    { clear -IH Q. induction Q as [|kv t d items Hv Q IHQ].
      - exists []. split; constructor.
      - inversion IH as [|? ? P1 P2]; subst.
        destruct (json_dumps (snd kv)) as [tv|e] eqn:D; [|discriminate].
        injection Hv as <-.
        destruct (P1 tv eq_refl) as (j & J & R).
        destruct (IHQ P2) as (ms & A & B).
        exists ((flat_map utf16 (fst kv), j) :: ms). split.
        + constructor; [rewrite J; reflexivity | exact A].
        + constructor; [|exact B].
          exists (fst kv), tv. repeat split; try reflexivity; apply R. }
    destruct X as (ms & A & B).
    exists (JObject ms). split.
    + cbn [json_of].
      rewrite (sequence_option_map _ d ms A). reflexivity.
    + exact (renders_object items ms B).
  - discriminate.
Qed.

Lemma renders_json_loads (t : pystr) (j : json) :
  renders t j ->
  json_loads t = Some j /\ json_loads (t ++ [10%N]) = Some j.
Proof.
  intros (P & L & _). unfold json_loads. split.
  - rewrite <- (List.app_nil_r t) at 2. rewrite P by lia. reflexivity.
  - rewrite P by (rewrite length_app; lia). reflexivity.
Qed.

Lemma json_of_dict (d : list (pystr * pyval)) :
  json_of (PyDict d) =
  match sequence_option
          (map (fun kv =>
                  match json_of (snd kv) with
                  | Some j => Some (flat_map utf16 (fst kv), j)
                  | None => None
                  end) d) with
  | Some ms => Some (JObject ms)
  | None => None
  end.
Proof. reflexivity. Qed.


(** ** The content of the log file *)

Lemma sequence_result_ok {A B} (f : A -> result B) (l : list A) :
  Forall (fun a => exists b, f a = Ok b) l ->
  exists items, sequence_result (map f l) = Ok items.
Proof.
  induction 1 as [|a l [b H] F [items IH]]; [exists []; reflexivity|].
  cbn [map sequence_result]. rewrite H, IH. eexists; reflexivity.
Qed.

Lemma json_dumps_encodable (v : pyval) :
  encodable v = true -> exists t, json_dumps v = Ok t.
Proof.
  induction v as [| b | s | l IH | d IH |] using pyval_nested_ind;
    intros E; try (eexists; reflexivity); try discriminate.
  - destruct b; eexists; reflexivity.
  - cbn [encodable] in E. rewrite forallb_forall in E.
    destruct (sequence_result_ok json_dumps l) as [items S].
    { rewrite Forall_forall in IH |- *. intros x I. apply IH; auto. }
    cbn [json_dumps]. rewrite S. eexists; reflexivity.
  - cbn [encodable] in E. rewrite forallb_forall in E.
    cbn [json_dumps].
    match goal with
    | |- context [sequence_result (map ?f d)] =>
        destruct (sequence_result_ok f d) as [items S]
    end.
    { rewrite Forall_forall in IH |- *. intros kv I.
      destruct (IH kv I (E kv I)) as [t T]. rewrite T. eexists; reflexivity. }
    rewrite S. eexists; reflexivity.
Qed.







(* ===================================================================== *)
(** * Further properties of the collector *)
(* ===================================================================== *)

(** ** Rank detection and suppression *)

(** X1: [is_mpi_rank_nonzero] returns [True] exactly when [mpi4py] is
    loaded with its [MPI] module, the runtime is initialized and not
    finalized, and the rank of the process in [COMM_WORLD] is positive. *)
Theorem rank_nonzero_iff (w : world) :
  is_mpi_rank_nonzero w = Ok true <->
  exists m r rank,
    dict_get (sys_modules w) (py "mpi4py") = Some m
    /\ MPI m = Some (MPI_runtime r)
    /\ Is_finalized r = Ok false
    /\ Is_initialized r = Ok true
    /\ COMM_WORLD_Get_rank r = Ok rank
    /\ (0 < rank)%Z.
Proof.
  unfold is_mpi_rank_nonzero, dict_contains. split.
  - destruct (dict_get (sys_modules w) (py "mpi4py")) as [m|];
      [|discriminate].
    destruct (MPI m) as [[|r]|] eqn:A; try discriminate.
    destruct (Is_finalized r) as [[|]|] eqn:F; try discriminate.
    destruct (Is_initialized r) as [[|]|] eqn:I; try discriminate.
    destruct (COMM_WORLD_Get_rank r) as [rank|] eqn:G; try discriminate.
    intros H. injection H as H. apply Z.ltb_lt in H.
    exists m, r, rank. repeat split; assumption.
  - intros (m & r & rank & D & A & F & I & G & P).
    rewrite D, A, F, I, G. f_equal. apply Z.ltb_lt; exact P.
Qed.

(** X2: on a rank above zero [inspect_and_log] returns at its first
    statement: it completes without an exception and leaves the umask and
    the file system alone, whatever the toggle and the file system say,
    and so does the process. *)
Theorem rank_nonzero_suppresses
    (env_at_import : dict pystr) (w : world) (st : proc_state) :
  is_mpi_rank_nonzero w = Ok true ->
  inspect_and_log w st = (Ok tt, st)
  /\ process env_at_import w st = st.
Proof.
  intros R.
  assert (E : inspect_and_log w st = (Ok tt, st))
    by (rewrite inspect_and_log_run, R; reflexivity).
  split; [exact E|].
  unfold process, registered.
  destruct (negb (truthy (disable_toggle env_at_import))); [|reflexivity].
  cbn [run_exitfuncs]. rewrite E. reflexivity.
Qed.

Lemma rank_nonzero_suppresses_witness :
  let r := {| Is_finalized := Ok false; Is_initialized := Ok true;
              COMM_WORLD_Get_rank := Ok 3%Z |} in
  let w := example_world example_env
             ((py "mpi4py", mpi_module r) :: example_modules) None None in
  process example_env w st_default = st_default.
Proof.
  intros r w.
  exact (proj2 (rank_nonzero_suppresses example_env w st_default eq_refl)).
Defined.

(** X3: the rank is queried before the toggle is read: an exception of
    the MPI runtime leaves [inspect_and_log] even when
    [DISABLE_PYMODULE_SNOOP] is set, before any effect. *)
Theorem rank_error_precedes_toggle
    (w : world) (st : proc_state) (e : exn) :
  is_mpi_rank_nonzero w = Raise e ->
  inspect_and_log w st = (Raise e, st).
Proof. intros R. rewrite inspect_and_log_run, R. reflexivity. Qed.

Lemma rank_error_precedes_toggle_witness :
  let r := {| Is_finalized := Ok false; Is_initialized := Ok true;
              COMM_WORLD_Get_rank := Raise (MPIException 5) |} in
  let w := example_world [(py "DISABLE_PYMODULE_SNOOP", py "1")]
             ((py "mpi4py", mpi_module r) :: example_modules) None None in
  truthy (disable_toggle (environ w)) = true
  /\ inspect_and_log w st_default = (Raise (MPIException 5), st_default).
Proof.
  intros r w. split; [reflexivity|].
  exact (rank_error_precedes_toggle w st_default (MPIException 5) eq_refl).
Defined.

(** ** The effects of one invocation *)

Lemma write_event_inv (w : world) (st : proc_state) (evs : list event)
    (p data : pystr) :
  trace (snd (inspect_and_log w st)) = trace st ++ evs ->
  In (EvWrite p data) evs ->
  exists text,
    json_dumps (PyDict (log_record w)) = Ok text
    /\ data = text ++ [10%N]
    /\ In p (prior_handlers w ++ [log_file w])
    /\ makedirs_outcome w (log_dir w) = None
    /\ open_outcome w (log_path w) = None
    /\ isEnabledFor_INFO w = true.
Proof.
  intros H I.
  destruct (inspect_and_log_added w st evs H) as [->|(_ & _ & ->)];
    [destruct I|].
  apply collect_events_cases in I.
  destruct I as [I|[I|[[I _]|(Mk & Op & En & text & h & D & Ih & I)]]];
    try discriminate.
  injection I as -> ->. exists text. repeat split; assumption.
Qed.

(** X4: a process that is not suppressed, on a file system that accepts
    the directory and the file, with a record that [json] can encode,
    [INFO] logging enabled and no earlier handler on the logger, makes
    exactly four calls: the umask, the directory, one log file opened, one
    line written to it. *)
Theorem process_writes_one_file
    (env_at_import : dict pystr) (w : world) (st : proc_state)
    (text : pystr) :
  truthy (disable_toggle env_at_import) = false ->
  truthy (disable_toggle (environ w)) = false ->
  is_mpi_rank_nonzero w = Ok false ->
  makedirs_outcome w (log_dir w) = None ->
  open_outcome w (log_path w) = None ->
  json_dumps (PyDict (log_record w)) = Ok text ->
  isEnabledFor_INFO w = true ->
  prior_handlers w = [] ->
  process env_at_import w st =
  {| cur_umask := 2;
     trace := trace st ++
              [EvUmask 2; EvMakedirs (log_dir w) 509;
               EvOpen (log_file w) 436;
               EvWrite (log_file w) (text ++ [10%N])] |}.
Proof.
  intros T0 T R Mk Op D En Pr.
  unfold process, registered. rewrite T0. cbn [negb run_exitfuncs].
  rewrite (inspect_and_log_not_suppressed w st R T).
  unfold collect_events. rewrite Mk, Op, D, En, Pr. reflexivity.
Qed.

Lemma process_writes_one_file_witness :
  process example_env w_example st_default =
  {| cur_umask := 2;
     trace := [EvUmask 2; EvMakedirs (log_dir w_example) 509;
               EvOpen (log_path w_example) 436;
               EvWrite (log_path w_example) example_line] |}.
Proof.
  assert (D : exists text,
             json_dumps (PyDict (log_record w_example)) = Ok text
             /\ example_line = text ++ [10%N]).
  { vm_compute. eexists; split; reflexivity. }
  destruct D as (text & D & ->).
  exact (process_writes_one_file example_env w_example st_default text
           eq_refl eq_refl eq_refl eq_refl eq_refl D eq_refl eq_refl).
Defined.

(** X5: a collection that is not suppressed leaves the umask of the
    process at [0o002], whether it ends normally or with an exception: the
    previous mask, which [os.umask] returns, is not restored. *)
Theorem umask_left_changed (w : world) (st : proc_state) :
  is_mpi_rank_nonzero w = Ok false ->
  truthy (disable_toggle (environ w)) = false ->
  cur_umask (snd (inspect_and_log w st)) = 2%Z.
Proof.
  intros R T. rewrite (inspect_and_log_not_suppressed w st R T). reflexivity.
Qed.

Lemma umask_left_changed_witness :
  cur_umask st_default = 18%Z
  /\ cur_umask
       (snd (inspect_and_log
               (example_world example_env example_modules
                  (Some (OSError 13)) None) st_default)) = 2%Z.
Proof.
  split; [reflexivity|].
  exact (umask_left_changed
           (example_world example_env example_modules (Some (OSError 13)) None)
           st_default eq_refl eq_refl).
Defined.

Lemma filter_is_write_handlers (data : pystr) (hs : list pystr) :
  filter is_write (map (fun h => EvWrite h data) hs)
  = map (fun h => EvWrite h data) hs.
Proof. induction hs as [|h hs IH]; cbn; [|rewrite IH]; reflexivity. Qed.

Lemma filter_not_write_handlers (f : event -> bool) (data : pystr)
    (hs : list pystr) :
  (forall h, f (EvWrite h data) = false) ->
  filter f (map (fun h => EvWrite h data) hs) = [].
Proof.
  intros F. induction hs as [|h hs IH]; [reflexivity|].
  cbn [map filter]. rewrite F. exact IH.
Qed.

(** X6: the steps gate one another: the only directory made is
    [log_dir]; the only file opened is the one [logging.FileHandler]
    resolves the log path to, and only after [os.makedirs] has succeeded;
    a line is written only after the file has been opened and the record
    encoded, with [INFO] enabled, and only to that file or to the file of
    an earlier handler of the logger.  There is at most one [makedirs],
    one opening, and one line for each handler. *)
Theorem effects_gated (w : world) (st : proc_state) (evs : list event) :
  trace (snd (inspect_and_log w st)) = trace st ++ evs ->
  (forall p m, In (EvMakedirs p m) evs -> p = log_dir w)
  /\ (forall p m, In (EvOpen p m) evs ->
        p = os_path_abspath (getcwd w) (log_path w)
        /\ makedirs_outcome w (log_dir w) = None)
  /\ (forall p data, In (EvWrite p data) evs ->
        In p (prior_handlers w
                ++ [os_path_abspath (getcwd w) (log_path w)])
        /\ makedirs_outcome w (log_dir w) = None
        /\ open_outcome w (log_path w) = None
        /\ isEnabledFor_INFO w = true
        /\ exists text,
             json_dumps (PyDict (log_record w)) = Ok text
             /\ data = text ++ [10%N])
  /\ List.length (filter is_makedirs evs) <= 1
  /\ List.length (filter is_open evs) <= 1
  /\ List.length (filter is_write evs) <= S (List.length (prior_handlers w)).
Proof.
  intros H. fold (log_file w).
  assert (G : forall l : list event,
            (forall e, In e l -> In e (collect_events w)) ->
            (forall p m, In (EvMakedirs p m) l -> p = log_dir w)
            /\ (forall p m, In (EvOpen p m) l ->
                  p = log_file w /\ makedirs_outcome w (log_dir w) = None)
            /\ (forall p data, In (EvWrite p data) l ->
                  In p (prior_handlers w ++ [log_file w])
                  /\ makedirs_outcome w (log_dir w) = None
                  /\ open_outcome w (log_path w) = None
                  /\ isEnabledFor_INFO w = true
                  /\ exists text,
                       json_dumps (PyDict (log_record w)) = Ok text
                       /\ data = text ++ [10%N])).
  { intros l A. split; [|split]; intros p x I;
      destruct (collect_events_cases w _ (A _ I))
        as [E|[E|[[E Mk]|(Mk & Op & En & text & h & D & Ih & E)]]];
      try discriminate; injection E as -> ->; auto.
    repeat split; auto. exists text; split; auto. }
  destruct (inspect_and_log_added w st evs H) as [->|(_ & _ & ->)].
  { destruct (G [] (fun e I => match I with end)) as (A & B & C).
    repeat (split; [assumption|]). cbn. lia. }
  destruct (G _ (fun e I => I)) as (B & C & D).
  repeat (split; [assumption|]).
  unfold collect_events.
  destruct (makedirs_outcome w (log_dir w)); [cbn; lia|].
  destruct (open_outcome w (log_path w)); [cbn; lia|].
  destruct (json_dumps (PyDict (log_record w))) as [text|]; [|cbn; lia].
  destruct (isEnabledFor_INFO w); [|cbn; lia].
  cbn [filter is_makedirs is_open is_write].
  rewrite filter_is_write_handlers,
    !filter_not_write_handlers by reflexivity.
  rewrite length_map, length_app. cbn [List.length]. lia.
Qed.

Lemma effects_gated_witness :
  List.length
    (filter is_open (trace (snd (inspect_and_log w_example st_default)))) <= 1.
Proof.
  refine (proj1 (proj2 (proj2 (proj2 (proj2
            (effects_gated w_example st_default
               (trace (snd (inspect_and_log w_example st_default))) _)))))).
  reflexivity.
Defined.

(** ** Serialization: when it succeeds, what it leaves when it fails *)

Lemma sequence_result_raise {A B} (f : A -> result B) (l : list A) (e : exn) :
  sequence_result (map f l) = Raise e ->
  exists a, In a l /\ f a = Raise e.
Proof.
  induction l as [|a l IH]; [discriminate|].
  cbn [map sequence_result].
  destruct (f a) as [b|e'] eqn:F.
  - destruct (sequence_result (map f l)) as [bs|e'']; [discriminate|].
    intros H; injection H as ->.
    destruct (IH eq_refl) as (x & I & X). exists x; split; [right|]; auto.
  - intros H; injection H as ->. exists a; split; [left|]; auto.
Qed.

Lemma Forall2_in_left {A B} (R : A -> B -> Prop) (l : list A) (l' : list B)
    (a : A) :
  Forall2 R l l' -> In a l -> exists b, In b l' /\ R a b.
Proof.
  induction 1 as [|x y l l' H F IH]; [intros []|].
  intros [<-|I].
  - exists y; split; [left|]; auto.
  - destruct (IH I) as (b & Ib & Rb). exists b; split; [right|]; auto.
Qed.

Lemma json_dumps_ok_encodable (v : pyval) :
  forall t, json_dumps v = Ok t -> encodable v = true.
Proof.
  induction v as [| b | s | l IH | d IH |] using pyval_nested_ind;
    intros t H; try reflexivity; try discriminate.
  - cbn [json_dumps] in H.
    destruct (sequence_result (map json_dumps l)) as [items|e] eqn:Q;
      [|discriminate].
    apply sequence_result_map in Q.
    cbn [encodable]. apply forallb_forall. intros x I.
    rewrite Forall_forall in IH.
    destruct (Forall2_in_left _ _ _ _ Q I) as (b & _ & ?). eapply IH; eauto.
  - cbn [json_dumps] in H.
    match type of H with
    | match sequence_result (map ?f d) with _ => _ end = _ =>
        destruct (sequence_result (map f d)) as [items|e] eqn:Q;
          [|discriminate]
    end.
    apply sequence_result_map in Q.
    cbn [encodable]. apply forallb_forall. intros kv I.
    rewrite Forall_forall in IH.
    destruct (Forall2_in_left _ _ _ _ Q I) as (b & _ & X).
    destruct (json_dumps (snd kv)) as [tv|] eqn:T; [|discriminate].
    eapply IH; eauto.
Qed.

Lemma json_dumps_raises_TypeError (v : pyval) :
  forall e, json_dumps v = Raise e -> e = TypeError.
Proof.
  induction v as [| b | s | l IH | d IH |] using pyval_nested_ind;
    intros e H; try discriminate.
  - destruct b; discriminate.
  - cbn [json_dumps] in H.
    destruct (sequence_result (map json_dumps l)) as [items|e'] eqn:Q;
      [discriminate|].
    injection H as ->. apply sequence_result_raise in Q as (x & I & X).
    rewrite Forall_forall in IH. eapply IH; eauto.
  - cbn [json_dumps] in H.
    match type of H with
    | match sequence_result (map ?f d) with _ => _ end = _ =>
        destruct (sequence_result (map f d)) as [items|e'] eqn:Q;
          [discriminate|]
    end.
    injection H as ->. apply sequence_result_raise in Q as (kv & I & X).
    destruct (json_dumps (snd kv)) as [tv|e'] eqn:T; [discriminate|].
    injection X as ->.
    rewrite Forall_forall in IH. eapply IH; eauto.
  - injection H as <-. reflexivity.
Qed.

Lemma encodable_str_values (d : dict pystr) :
  forallb (fun kv : pystr * pyval => encodable (snd kv))
    (map (fun kv => (fst kv, PyStr (snd kv))) d) = true.
Proof. induction d as [|kv d IH]; [reflexivity | exact IH]. Qed.

Lemma encodable_log_record (w : world) :
  encodable (PyDict (log_record w)) =
  encodable (sys_executable w)
  && forallb encodable (sys_path w)
  && forallb (fun kv => encodable (snd kv)) (modules_dict (sys_modules w)).
Proof.
  rewrite log_record_eq. unfold snapshot_info.
  cbn [encodable forallb app snd].
  rewrite encodable_str_values. cbn [andb].
  rewrite !andb_true_r, andb_assoc. reflexivity.
Qed.

(** X7: [json.dumps] encodes the record exactly when [sys.executable],
    every entry of [sys.path] and the [__file__] of every inventoried
    module are values it has an encoder for; the environment never stands
    in the way, its values being strings. *)
Theorem record_encoded_iff (w : world) :
  (exists text, json_dumps (PyDict (log_record w)) = Ok text) <->
  encodable (sys_executable w) = true
  /\ forallb encodable (sys_path w) = true
  /\ forallb (fun kv => encodable (snd kv))
       (modules_dict (sys_modules w)) = true.
Proof.
  rewrite <- !andb_true_iff, andb_assoc, <- encodable_log_record. split.
  - intros [text D]. exact (json_dumps_ok_encodable _ _ D).
  - apply json_dumps_encodable.
Qed.

Lemma modules_dict_in (sm : dict module) (k : pystr) (m : module) (f : pyval) :
  In (k, m) sm -> __file__ m = Some f -> In (k, f) (modules_dict sm).
Proof.
  induction sm as [|[k' m'] sm IH]; [intros []|].
  intros [E|I] F; cbn [modules_dict].
  - injection E as -> ->. rewrite F. left; reflexivity.
  - destruct (__file__ m'); [right|]; auto.
Qed.

(** X8: when the [__file__] of a loaded module is an object that [json]
    cannot encode, the collection ends with [TypeError] after the
    directory has been made and the log file opened: the file is left
    behind without a line in it. *)
Theorem unencodable_origin_leaves_empty_file
    (w : world) (st : proc_state) (name : pystr) (m : module) :
  is_mpi_rank_nonzero w = Ok false ->
  truthy (disable_toggle (environ w)) = false ->
  makedirs_outcome w (log_dir w) = None ->
  open_outcome w (log_path w) = None ->
  In (name, m) (sys_modules w) ->
  __file__ m = Some PyObject ->
  inspect_and_log w st =
  (Raise TypeError,
   {| cur_umask := 2;
      trace := trace st ++
               [EvUmask 2; EvMakedirs (log_dir w) 509;
                EvOpen (os_path_abspath (getcwd w) (log_path w)) 436] |}).
Proof.
  intros R T Mk Op I F.
  rewrite (inspect_and_log_not_suppressed w st R T).
  unfold collect_result, collect_events. rewrite Mk, Op.
  destruct (json_dumps (PyDict (log_record w))) as [text|e] eqn:D.
  - exfalso. apply json_dumps_ok_encodable in D.
    rewrite encodable_log_record in D.
    apply andb_true_iff in D as [_ D]. rewrite forallb_forall in D.
    specialize (D _ (modules_dict_in _ _ _ _ I F)). discriminate D.
  - rewrite (json_dumps_raises_TypeError _ _ D). reflexivity.
Qed.

Lemma unencodable_origin_leaves_empty_file_witness :
  let sm := (py "odd", {| __file__ := Some PyObject; MPI := None |})
              :: example_modules in
  let w := example_world example_env sm None None in
  fst (inspect_and_log w st_default) = Raise TypeError
  /\ filter is_write (trace (snd (inspect_and_log w st_default))) = [].
Proof.
  intros sm w.
  rewrite (unencodable_origin_leaves_empty_file w st_default (py "odd")
             {| __file__ := Some PyObject; MPI := None |}
             eq_refl eq_refl eq_refl eq_refl (or_introl eq_refl) eq_refl).
  split; reflexivity.
Defined.

(** ** Reading the line back *)

Lemma sequence_option_inv {A B} (f : A -> option B) (l : list A)
    (js : list B) :
  sequence_option (map f l) = Some js ->
  Forall2 (fun a b => f a = Some b) l js.
Proof.
  revert js; induction l as [|a l IH]; cbn [map sequence_option]; intros js H.
  - injection H as <-; constructor.
  - destruct (f a) as [b|] eqn:F; [|discriminate].
    destruct (sequence_option (map f l)) as [bs|]; [|discriminate].
    injection H as <-. constructor; auto.
Qed.

Lemma json_of_dict_inv (d : list (pystr * pyval)) (j : json) :
  json_of (PyDict d) = Some j ->
  exists ms, j = JObject ms /\ Forall2 member_of d ms.
Proof.
  rewrite json_of_dict.
  match goal with
  | |- context [sequence_option (map ?f d)] =>
      destruct (sequence_option (map f d)) as [ms|] eqn:Q; [|discriminate]
  end.
  intros H; injection H as <-. exists ms; split; [reflexivity|].
  apply sequence_option_inv in Q.
  clear -Q. induction Q as [|kv m d ms H Q IH]; constructor; auto.
  destruct (json_of (snd kv)) as [jv|] eqn:J; [|discriminate].
  injection H as <-. split; [reflexivity | exact J].
Qed.

Lemma json_of_str_dict (d : dict pystr) :
  json_of (PyDict (map (fun kv => (fst kv, PyStr (snd kv))) d)) =
  Some (JObject
          (map (fun kv => (flat_map utf16 (fst kv),
                           JString (flat_map utf16 (snd kv)))) d)).
Proof.
  rewrite json_of_dict, map_map.
  erewrite sequence_option_map; [reflexivity|].
  induction d as [|kv d IH]; constructor; auto.
Qed.

Lemma log_line_members (w : world) (st : proc_state) (evs : list event)
    (p data : pystr) :
  trace (snd (inspect_and_log w st)) = trace st ++ evs ->
  In (EvWrite p data) evs ->
  exists je jp ms_mod,
    json_loads data =
    Some (JObject
            [ (py "timestamp",
                JString (flat_map utf16 (strftime (now w) DATETIME_FMT)));
              (py "sys.executable", je);
              (py "sys.path", jp);
              (py "cobalt_envs",
                JObject
                  (map (fun kv => (flat_map utf16 (fst kv),
                                   JString (flat_map utf16 (snd kv))))
                       (cobalt_envs (environ w))));
              (py "modules", JObject ms_mod) ])
    /\ json_of (sys_executable w) = Some je
    /\ json_of (PyList (sys_path w)) = Some jp
    /\ Forall2 member_of (modules_dict (sys_modules w)) ms_mod.
Proof.
  intros H I.
  destruct (write_event_inv w st evs p data H I)
    as (text & D & -> & _ & _ & _ & _).
  destruct (json_dumps_renders _ _ D) as (j & J & R).
  destruct (renders_json_loads _ _ R) as [_ L]. rewrite L.
  rewrite json_of_dict, log_record_eq in J. unfold snapshot_info in J.
  cbn [app map snd fst] in J.
  rewrite json_of_str_dict in J.
  change (json_of (PyStr ?s)) with (Some (JString (flat_map utf16 s))) in J.
  destruct (json_of (sys_executable w)) as [je|] eqn:E1;
    [|discriminate J].
  destruct (json_of (PyList (sys_path w))) as [jp|] eqn:E2;
    [|cbn [sequence_option] in J; discriminate J].
  destruct (json_of (PyDict (modules_dict (sys_modules w)))) as [jm|] eqn:E3;
    [|cbn [sequence_option] in J; discriminate J].
  cbn [sequence_option] in J. injection J as <-.
  destruct (json_of_dict_inv _ _ E3) as (ms & -> & F).
  exists je, jp, ms. repeat split; auto.
Qed.

(** X9: the line round-trips: parsed, it is an object of five members in
    this order: [timestamp], the formatted snapshot time; [sys.executable]
    and [sys.path], the images of these values; [cobalt_envs], the filtered
    environment, name by name and in its order; [modules], one member for
    each entry of the inventory, in its order. *)
Theorem log_line_round_trip (w : world) (st : proc_state) (evs : list event)
    (p data : pystr) :
  trace (snd (inspect_and_log w st)) = trace st ++ evs ->
  In (EvWrite p data) evs ->
  exists je jp ms_mod,
    json_loads data =
    Some (JObject
            [ (py "timestamp",
                JString (flat_map utf16 (strftime (now w) DATETIME_FMT)));
              (py "sys.executable", je);
              (py "sys.path", jp);
              (py "cobalt_envs",
                JObject
                  (map (fun kv => (flat_map utf16 (fst kv),
                                   JString (flat_map utf16 (snd kv))))
                       (cobalt_envs (environ w))));
              (py "modules", JObject ms_mod) ])
    /\ json_of (sys_executable w) = Some je
    /\ json_of (PyList (sys_path w)) = Some jp
    /\ Forall2 member_of (modules_dict (sys_modules w)) ms_mod.
Proof. exact (log_line_members w st evs p data). Qed.

Lemma log_line_round_trip_witness :
  exists ms_mod,
    json_loads example_line =
    Some (JObject
            [ (py "timestamp", JString (py "03-01-2024 10:15:22.123456"));
              (py "sys.executable", JString (py "/usr/bin/python3"));
              (py "sys.path", JArray [JString (py "/usr/lib/python3.6")]);
              (py "cobalt_envs",
                JObject [(py "COBALT_JOBID", JString (py "12345"))]);
              (py "modules", JObject ms_mod) ]).
Proof.
  destruct (log_line_round_trip w_example st_default
              (collect_events w_example) (log_path w_example) example_line)
    as (je & jp & ms & L & E1 & E2 & _).
  - rewrite (inspect_and_log_not_suppressed w_example _ eq_refl eq_refl).
    reflexivity.
  - do 3 right; left; reflexivity.
  - injection E1 as <-. injection E2 as <-. exists ms. exact L.
Defined.

Lemma utf16_bmp (s : pystr) : bmp s -> flat_map utf16 s = s.
Proof.
  induction 1 as [|c s H F IH]; [reflexivity|].
  cbn [flat_map]. unfold utf16 at 1.
  apply N.ltb_lt in H. rewrite H, IH. reflexivity.
Qed.

(** X10: a reader recovers the paths: for a loaded module whose name and
    [__file__] are strings of the basic multilingual plane, the object
    parsed from the line has, under [modules], a member with this name and
    exactly this path. *)
Theorem module_path_recovered (w : world) (st : proc_state)
    (evs : list event) (p data : pystr) (name path : pystr) (m : module) :
  trace (snd (inspect_and_log w st)) = trace st ++ evs ->
  In (EvWrite p data) evs ->
  In (name, m) (sys_modules w) ->
  __file__ m = Some (PyStr path) ->
  bmp name -> bmp path ->
  exists members ms_mod,
    json_loads data = Some (JObject members)
    /\ dict_get members (py "modules") = Some (JObject ms_mod)
    /\ In (name, JString path) ms_mod.
Proof.
  intros H I Im F Bn Bp.
  destruct (log_line_members w st evs p data H I)
    as (je & jp & ms & L & _ & _ & A).
  eexists; exists ms. split; [exact L|]. split; [reflexivity|].
  destruct (Forall2_in_left _ _ _ _ A (modules_dict_in _ _ _ _ Im F))
    as ([k j] & Ik & K & J).
  cbn [fst snd json_of] in K, J. injection J as <-.
  rewrite (utf16_bmp _ Bn) in K. rewrite (utf16_bmp _ Bp) in Ik.
  subst k. exact Ik.
Qed.

Lemma module_path_recovered_witness :
  exists members ms_mod,
    json_loads example_line = Some (JObject members)
    /\ dict_get members (py "modules") = Some (JObject ms_mod)
    /\ In (py "__main__", JString (py "/home/u/job.py")) ms_mod.
Proof.
  refine (module_path_recovered w_example st_default
            (collect_events w_example) (log_path w_example) example_line
            (py "__main__") (py "/home/u/job.py")
            {| __file__ := Some (PyStr (py "/home/u/job.py")); MPI := None |}
            _ _ (or_introl eq_refl) eq_refl _ _).
  - rewrite (inspect_and_log_not_suppressed w_example _ eq_refl eq_refl).
    reflexivity.
  - do 3 right; left; reflexivity.
  - apply Forall_forall. intros c Ic. apply N.ltb_lt.
    revert c Ic. apply forallb_forall. reflexivity.
  - apply Forall_forall. intros c Ic. apply N.ltb_lt.
    revert c Ic. apply forallb_forall. reflexivity.
Defined.

(** ** File names *)

Lemma uint_of_codes_codes (d : Decimal.uint) :
  uint_of_codes (uint_codes d) = d.
Proof. induction d; cbn; rewrite ?IHd; reflexivity. Qed.

Lemma int_of_digits_str_N (n : N) : int_of_digits (str_N n) = n.
Proof.
  unfold int_of_digits, str_N. rewrite uint_of_codes_codes.
  apply DecimalN.Unsigned.of_to.
Qed.

Lemma int_of_digits_zeros (k : nat) (s : pystr) :
  int_of_digits (repeat 48%N k ++ s) = int_of_digits s.
Proof. induction k as [|k IH]; [reflexivity | exact IH]. Qed.

Lemma str_int_nonneg (z : Z) : (0 <= z)%Z -> str_int z = str_N (Z.to_N z).
Proof. destruct z; [reflexivity | reflexivity | lia]. Qed.

Lemma int_of_digits_zero_pad (width : nat) (z : Z) :
  (0 <= z)%Z -> int_of_digits (zero_pad width z) = Z.to_N z.
Proof.
  intros H. unfold zero_pad.
  rewrite int_of_digits_zeros, (str_int_nonneg z H). apply int_of_digits_str_N.
Qed.

Lemma zero_pad_inj (width : nat) (a b : Z) :
  (0 <= a)%Z -> (0 <= b)%Z -> zero_pad width a = zero_pad width b -> a = b.
Proof.
  intros A B H. apply (f_equal int_of_digits) in H.
  rewrite !int_of_digits_zero_pad in H by assumption. lia.
Qed.

Lemma str_N_head_digit (n : N) :
  exists c s, str_N n = c :: s /\ (48 <= c <= 57)%N.
Proof.
  pose proof (str_N_nonempty n) as NE.
  pose proof (uint_codes_digits (N.to_uint n)) as D. fold (str_N n) in D.
  destruct (str_N n) as [|c s]; [contradiction|].
  inversion D; subst. exists c, s; auto.
Qed.

Lemma str_int_inj (a b : Z) : str_int a = str_int b -> a = b.
Proof.
  assert (P : forall x y, (0 <= x)%Z -> (0 <= y)%Z ->
                          str_int x = str_int y -> x = y).
  { intros x y X Y H. rewrite !str_int_nonneg in H by assumption.
    apply (f_equal int_of_digits) in H.
    rewrite !int_of_digits_str_N in H. lia. }
  assert (Q : forall p y, (0 <= y)%Z -> str_int (Zneg p) <> str_int y).
  { intros p y Y H. rewrite (str_int_nonneg y Y) in H. cbn [str_int] in H.
    destruct (str_N_head_digit (Z.to_N y)) as (c & s & E & D).
    rewrite E in H. inversion H; subst. lia. }
  intros H. destruct a as [|p|p], b as [|q|q];
    try (apply P; [lia | lia | exact H]).
  - symmetry in H. exfalso. exact (Q q 0%Z ltac:(lia) H).
  - symmetry in H. exfalso. exact (Q q (Zpos p) ltac:(lia) H).
  - exfalso. exact (Q p 0%Z ltac:(lia) H).
  - exfalso. exact (Q p (Zpos q) ltac:(lia) H).
  - cbn [str_int] in H. injection H as H.
    apply (f_equal int_of_digits) in H.
    rewrite !int_of_digits_str_N in H. congruence.
Qed.

Lemma str_int_no_dot (z : Z) : ~ In 46%N (str_int z).
Proof.
  assert (D : forall n, ~ In 46%N (str_N n)).
  { intros n I. pose proof (uint_codes_digits (N.to_uint n)) as F.
    rewrite Forall_forall in F. specialize (F _ I). lia. }
  destruct z; cbn [str_int]; try apply D.
  intros [E|I]; [discriminate | exact (D _ I)].
Qed.

Lemma zero_pad_no_dot (width : nat) (z : Z) : ~ In 46%N (zero_pad width z).
Proof.
  unfold zero_pad. intros I. apply in_app_or in I as [I|I].
  - apply repeat_spec in I. discriminate.
  - exact (str_int_no_dot z I).
Qed.

Lemma split_last_dot (a b x y : pystr) :
  ~ In 46%N x -> ~ In 46%N y ->
  a ++ 46%N :: x = b ++ 46%N :: y -> a = b /\ x = y.
Proof.
  intros X Y. revert b. induction a as [|c a IH]; intros [|c' b] H;
    cbn [app] in H.
  - injection H as H. auto.
  - injection H as H1 H2.
    exfalso. apply X. rewrite H2. apply in_or_app. right; left; reflexivity.
  - injection H as H1 H2.
    exfalso. apply Y. rewrite <- H2. apply in_or_app. right; left; reflexivity.
  - injection H as H1 H2.
    subst c'. destruct (IH b H2) as [-> ->]. auto.
Qed.

Lemma fname_left_nested (w : world) :
  fname w =
  ((((hostname w ++ 46%N :: str_int (pid w))
       ++ 46%N :: zero_pad 2 (hour (now w)))
      ++ 46%N :: zero_pad 2 (minute (now w)))
     ++ 46%N :: zero_pad 2 (second (now w)))
    ++ 46%N :: zero_pad 6 (microsecond (now w)).
Proof.
  rewrite fname_eq. change (py ".") with [46%N].
  repeat (rewrite <- app_assoc; cbn [app]). reflexivity.
Qed.

Lemma fname_fields_inj (w1 w2 : world) :
  time_fields_nonneg (now w1) ->
  time_fields_nonneg (now w2) ->
  fname w1 = fname w2 ->
  hostname w1 = hostname w2
  /\ pid w1 = pid w2
  /\ hour (now w1) = hour (now w2)
  /\ minute (now w1) = minute (now w2)
  /\ second (now w1) = second (now w2)
  /\ microsecond (now w1) = microsecond (now w2).
Proof.
  intros (H1 & M1 & S1 & U1) (H2 & M2 & S2 & U2) E.
  rewrite !fname_left_nested in E.
  apply split_last_dot in E as [E EU]; try apply zero_pad_no_dot.
  apply split_last_dot in E as [E ES]; try apply zero_pad_no_dot.
  apply split_last_dot in E as [E EM]; try apply zero_pad_no_dot.
  apply split_last_dot in E as [E EH]; try apply zero_pad_no_dot.
  apply split_last_dot in E as [E EP]; try apply str_int_no_dot.
  repeat split; auto using str_int_inj.
  all: eapply zero_pad_inj; eauto.
Qed.

(** X11: the file name determines the process and the moment: two
    snapshots with the same [hostname.pid.HH.MM.SS.microseconds] have the
    same host name, the same pid and the same time of day.  Hence two
    processes of one host with different pids, or one process at two
    different microseconds, never share a file name. *)
Theorem fname_injective (w1 w2 : world) :
  time_fields_nonneg (now w1) ->
  time_fields_nonneg (now w2) ->
  fname w1 = fname w2 ->
  hostname w1 = hostname w2
  /\ pid w1 = pid w2
  /\ hour (now w1) = hour (now w2)
  /\ minute (now w1) = minute (now w2)
  /\ second (now w1) = second (now w2)
  /\ microsecond (now w1) = microsecond (now w2).
Proof. exact (fname_fields_inj w1 w2). Qed.

Lemma fname_injective_witness :
  let w2 := {| environ := example_env; sys_modules := example_modules;
               sys_path := []; sys_executable := PyNone;
               now := example_now; hostname := py "node07"; pid := 4243;
               makedirs_outcome := fun _ => None;
               open_outcome := fun _ => None;
               getcwd := py "/home/u"; logging_disable := 0;
               logger_disabled := false; prior_handlers := [] |} in
  fname w_example <> fname w2.
Proof.
  intros w2 E.
  assert (T : time_fields_nonneg example_now)
    by (unfold time_fields_nonneg; cbn; lia).
  pose proof (proj1 (proj2 (fname_injective w_example w2 T T E))) as P.
  discriminate P.
Defined.

(** ** Directories *)

Lemma date_dir_plain (w : world) :
  let a := LOGFILE_ROOT ++ sep ++ str_int (year (now w))
           ++ sep ++ str_int (month (now w))
           ++ sep ++ str_int (day (now w)) in
  os_path_join LOGFILE_ROOT
    [str_int (year (now w)); str_int (month (now w)); str_int (day (now w))]
  = a
  /\ a <> [] /\ endswith a sep = false.
Proof.
  intros a.
  pose proof (str_int_plain (year (now w))) as Y.
  pose proof (str_int_plain (month (now w))) as Mo.
  pose proof (str_int_plain (day (now w))) as D.
  assert (R1 : LOGFILE_ROOT <> []) by discriminate.
  assert (R2 : endswith LOGFILE_ROOT sep = false) by reflexivity.
  rewrite (os_path_join_step _ _ _ R1 R2 (proj1 (proj2 Y))).
  destruct (join_plain LOGFILE_ROOT _ Y) as [A1 A2].
  rewrite (os_path_join_step _ _ _ A1 A2 (proj1 (proj2 Mo))).
  destruct (join_plain (LOGFILE_ROOT ++ sep ++ str_int (year (now w))) _ Mo)
    as [B1 B2].
  rewrite (os_path_join_step _ _ _ B1 B2 (proj1 (proj2 D))).
  destruct (join_plain
              ((LOGFILE_ROOT ++ sep ++ str_int (year (now w)))
                 ++ sep ++ str_int (month (now w))) _ D) as [C1 C2].
  change (os_path_join ?x []) with x.
  assert (E : ((LOGFILE_ROOT ++ sep ++ str_int (year (now w)))
                 ++ sep ++ str_int (month (now w)))
                ++ sep ++ str_int (day (now w)) = a).
  { unfold a. repeat rewrite <- app_assoc. reflexivity. }
  rewrite <- E. auto.
Qed.

(** X12: the directory of the log is the job id alone when the job id
    starts with ['/'], the log root and the date being dropped by
    [os.path.join]; in every other case, an empty job id included, it is
    [<log root>/<year>/<month>/<day>/] followed by the job id. *)
Theorem log_dir_form (w : world) :
  log_dir w =
  if startswith (job_id w) sep then job_id w
  else LOGFILE_ROOT ++ sep ++ str_int (year (now w))
         ++ sep ++ str_int (month (now w))
         ++ sep ++ str_int (day (now w))
         ++ sep ++ job_id w.
Proof.
  destruct (date_dir_plain w) as (J & NE & EW). cbv zeta in J, NE, EW.
  unfold log_dir.
  change (os_path_join LOGFILE_ROOT
            [str_int (year (now w)); str_int (month (now w));
             str_int (day (now w)); job_id w])
    with (os_path_join
            (os_path_join LOGFILE_ROOT
               [str_int (year (now w)); str_int (month (now w));
                str_int (day (now w))]) [job_id w]).
  rewrite J. cbn [os_path_join].
  destruct (startswith (job_id w) sep); [reflexivity|].
  rewrite EW, (pystr_eqb_neq _ [] NE). cbn [orb].
  repeat rewrite <- app_assoc. reflexivity.
Qed.

Lemma startswith_app (a b : pystr) : startswith (a ++ b) a = true.
Proof.
  induction a as [|c a IH]; [destruct b; reflexivity|].
  cbn [app startswith]. rewrite N.eqb_refl, IH. reflexivity.
Qed.

Lemma fname_startswith_sep (w : world) :
  startswith (fname w) sep = startswith (hostname w) sep.
Proof.
  rewrite fname_eq, !startswith_sep.
  destruct (hostname w); reflexivity.
Qed.

Lemma log_dir_nonempty (w : world) : log_dir w <> [].
Proof.
  destruct (date_dir_plain w) as (J & NE & EW). cbv zeta in J, NE, EW.
  unfold log_dir.
  change (os_path_join LOGFILE_ROOT
            [str_int (year (now w)); str_int (month (now w));
             str_int (day (now w)); job_id w])
    with (os_path_join
            (os_path_join LOGFILE_ROOT
               [str_int (year (now w)); str_int (month (now w));
                str_int (day (now w))]) [job_id w]).
  rewrite J. cbn [os_path_join].
  destruct (startswith (job_id w) sep) eqn:S.
  - intros E. rewrite E in S. discriminate S.
  - rewrite EW, (pystr_eqb_neq _ [] NE). cbn [orb].
    intros E. apply app_eq_nil in E as [E _]. destruct LOGFILE_ROOT; discriminate.
Qed.

(** X13: the log path, by cases: when the host name starts with ['/'],
    [os.path.join] drops the directory and the path is the file name
    alone; otherwise it is the directory, a separator exactly when the
    directory does not already end with one, and the file name, so that
    the log path starts with the path of the directory that was made. *)
Theorem log_file_in_log_dir (w : world) :
  log_path w =
  (if startswith (hostname w) sep then fname w
   else log_dir w
          ++ (if endswith (log_dir w) sep then [] else sep) ++ fname w)
  /\ (startswith (hostname w) sep = false ->
      startswith (log_path w) (log_dir w) = true).
Proof.
  assert (E : log_path w =
              if startswith (hostname w) sep then fname w
              else log_dir w
                     ++ (if endswith (log_dir w) sep then [] else sep)
                     ++ fname w).
  { unfold log_path. cbn [os_path_join].
    rewrite fname_startswith_sep.
    destruct (startswith (hostname w) sep); [reflexivity|].
    rewrite (pystr_eqb_neq _ [] (log_dir_nonempty w)). cbn [orb].
    destruct (endswith (log_dir w) sep); reflexivity. }
  split; [exact E|].
  intros H. rewrite E, H. apply startswith_app.
Qed.

Lemma log_file_in_log_dir_witness :
  startswith (log_path w_example) (log_dir w_example) = true.
Proof.
  exact (proj2 (log_file_in_log_dir w_example) eq_refl).
Defined.


Lemma str_int_no_sep (z : Z) : ~ In 47%N (str_int z).
Proof.
  assert (D : forall n, ~ In 47%N (str_N n)).
  { intros n I. pose proof (uint_codes_digits (N.to_uint n)) as F.
    rewrite Forall_forall in F. specialize (F _ I). lia. }
  destruct z; cbn [str_int]; try apply D.
  intros [E|I]; [discriminate | exact (D _ I)].
Qed.

Lemma log_dir_relative (w : world) :
  startswith (job_id w) sep = false ->
  log_dir w =
  LOGFILE_ROOT ++ 47%N :: str_int (year (now w))
    ++ 47%N :: str_int (month (now w))
    ++ 47%N :: str_int (day (now w))
    ++ 47%N :: job_id w.
Proof.
  intros S.
  destruct (date_dir_plain w) as (J & NE & EW). cbv zeta in J, NE, EW.
  unfold log_dir.
  change (os_path_join LOGFILE_ROOT
            [str_int (year (now w)); str_int (month (now w));
             str_int (day (now w)); job_id w])
    with (os_path_join
            (os_path_join LOGFILE_ROOT
               [str_int (year (now w)); str_int (month (now w));
                str_int (day (now w))]) [job_id w]).
  rewrite J. cbn [os_path_join].
  rewrite S, EW, (pystr_eqb_neq _ [] NE). cbn [orb].
  change sep with [47%N].
  repeat (rewrite <- app_assoc; cbn [app]). reflexivity.
Qed.



(** ** The file that is opened *)

Lemma split_on_plain (c : pystr) :
  ~ In 47%N c -> split_on 47 c = [c].
Proof.
  induction c as [|x c IH]; [reflexivity|].
  intros N. cbn [split_on].
  rewrite (proj2 (N.eqb_neq x 47)) by (intros ->; apply N; left; reflexivity).
  rewrite IH by (intros I; apply N; right; exact I). reflexivity.
Qed.

Lemma split_on_app (c rest : pystr) :
  ~ In 47%N c -> split_on 47 (c ++ 47%N :: rest) = c :: split_on 47 rest.
Proof.
  induction c as [|x c IH]; intros N.
  - reflexivity.
  - cbn [app split_on].
    rewrite (proj2 (N.eqb_neq x 47)) by (intros ->; apply N; left; reflexivity).
    rewrite IH by (intros I; apply N; right; exact I). reflexivity.
Qed.

Lemma split_on_join (comps : list pystr) :
  comps <> [] ->
  Forall (fun c => ~ In 47%N c) comps ->
  split_on 47 (str_join sep comps) = comps.
Proof.
  intros NE F. induction F as [|c comps Hc F IH]; [congruence|].
  destruct comps as [|c' comps].
  - apply split_on_plain; exact Hc.
  - rewrite str_join_cons2. change (sep ++ ?r) with (47%N :: r).
    rewrite split_on_app by exact Hc. rewrite IH by congruence. reflexivity.
Qed.

Lemma normpath_loop_plain (n : nat) (comps acc : list pystr) :
  Forall plain_name comps ->
  normpath_loop n comps acc = acc ++ comps.
Proof.
  intros F. revert acc.
  induction F as [|c comps (NE & _ & ND & NDD) F IH]; intros acc.
  - cbn [normpath_loop]. symmetry; apply List.app_nil_r.
  - cbn [normpath_loop].
    rewrite (pystr_eqb_neq c [] NE), (pystr_eqb_neq c dot ND),
      (pystr_eqb_neq c dotdot NDD).
    cbn [orb negb]. rewrite IH, <- app_assoc. reflexivity.
Qed.

Lemma normpath_plain (comps : list pystr) :
  comps <> [] ->
  Forall plain_name comps ->
  os_path_normpath (47%N :: str_join sep comps) = 47%N :: str_join sep comps.
Proof.
  intros NE F.
  assert (S : Forall (fun c => ~ In 47%N c) comps).
  { eapply Forall_impl; [|exact F]. intros c (_ & N & _). exact N. }
  assert (H : exists x r, str_join sep comps = x :: r /\ x <> 47%N).
  { destruct comps as [|c comps]; [congruence|].
    inversion F as [|? ? (Nc & Sc & _) _]; subst.
    destruct c as [|x c]; [congruence|].
    exists x. destruct comps.
    - exists c. split; [reflexivity|]. intros ->. apply Sc. left; reflexivity.
    - eexists. rewrite str_join_cons2. split; [reflexivity|].
      intros ->. apply Sc. left; reflexivity. }
  destruct H as (x & r & E & Nx).
  unfold os_path_normpath.
  cbn [pystr_eqb]. rewrite startswith_sep. change (N.eqb 47 47) with true.
  cbv iota.
  assert (D : startswith (47%N :: str_join sep comps) (sep ++ sep) = false).
  { rewrite E. change (sep ++ sep) with [47%N; 47%N]. cbn [startswith].
    rewrite (proj2 (N.eqb_neq 47 x)) by congruence. reflexivity. }
  rewrite D. cbn [andb].
  cbn [split_on]. change (N.eqb 47 47) with true. cbv iota.
  rewrite split_on_join by assumption.
  cbn [normpath_loop pystr_eqb orb].
  rewrite normpath_loop_plain by exact F.
  cbn [app repeat pystr_eqb]. reflexivity.
Qed.

Lemma zero_pad_no_sep (width : nat) (z : Z) : ~ In 47%N (zero_pad width z).
Proof.
  unfold zero_pad. intros I. apply in_app_or in I as [I|I].
  - apply repeat_spec in I. discriminate.
  - exact (str_int_no_sep z I).
Qed.

Lemma str_int_plain_name (z : Z) : plain_name (str_int z).
Proof.
  destruct (str_int_plain z) as (NE & _ & _).
  split; [exact NE|]. split; [apply str_int_no_sep|].
  split; intros E; apply (str_int_no_dot z); rewrite E; left; reflexivity.
Qed.

Lemma fname_plain_name (w : world) :
  ~ In 47%N (hostname w) -> plain_name (fname w).
Proof.
  intros H.
  assert (L : 3 <= List.length (fname w)).
  { rewrite fname_eq, !length_app. change (List.length (py ".")) with 1. lia. }
  split; [intros E; rewrite E in L; cbn in L; lia|].
  split.
  - rewrite fname_eq. change (py ".") with [46%N].
    repeat (rewrite in_app_iff; cbn [In]).
    pose proof (str_int_no_sep (pid w)).
    pose proof (zero_pad_no_sep 2 (hour (now w))).
    pose proof (zero_pad_no_sep 2 (minute (now w))).
    pose proof (zero_pad_no_sep 2 (second (now w))).
    pose proof (zero_pad_no_sep 6 (microsecond (now w))).
    intuition discriminate.
  - split; intros E; rewrite E in L; cbn in L; lia.
Qed.

(** X20: for a job id that is a plain name (not empty, without ['/'],
    neither ['.'] nor ['..']) and a host name without ['/'], the path that
    [logging.FileHandler] resolves with [os.path.abspath] and opens is the
    log path itself, whatever the working directory: the log path is
    absolute and [normpath] has nothing to remove from it. *)
Theorem log_file_is_log_path (w : world) :
  plain_name (job_id w) ->
  ~ In 47%N (hostname w) ->
  os_path_abspath (getcwd w) (log_path w) = log_path w.
Proof.
  intros J H.
  assert (JS : startswith (job_id w) sep = false).
  { rewrite startswith_sep. destruct J as (_ & N & _).
    destruct (job_id w) as [|c j]; [reflexivity|].
    apply N.eqb_neq. intros <-. apply N. left; reflexivity. }
  assert (HS : startswith (hostname w) sep = false).
  { rewrite startswith_sep. destruct (hostname w) as [|c h]; [reflexivity|].
    apply N.eqb_neq. intros <-. apply H. left; reflexivity. }
  assert (JE : endswith (job_id w) sep = false).
  { rewrite endswith_sep. destruct J as (_ & N & _).
    destruct (rev (job_id w)) as [|c r] eqn:E; [reflexivity|].
    apply N.eqb_neq. intros <-. apply N. apply in_rev. rewrite E.
    left; reflexivity. }
  assert (P : log_path w =
              47%N :: str_join sep
                [py "projects"; py "datascience"; py "PyModuleSnooper";
                 py "log"; str_int (year (now w)); str_int (month (now w));
                 str_int (day (now w)); job_id w; fname w]).
  { unfold log_path. cbn [os_path_join].
    rewrite fname_startswith_sep, HS.
    rewrite (pystr_eqb_neq _ [] (log_dir_nonempty w)). cbn [orb].
    rewrite (log_dir_relative w JS).
    assert (EW : endswith
                   (LOGFILE_ROOT ++ 47%N :: str_int (year (now w))
                      ++ 47%N :: str_int (month (now w))
                      ++ 47%N :: str_int (day (now w))
                      ++ 47%N :: job_id w) sep = false).
    { assert (Q : LOGFILE_ROOT ++ 47%N :: str_int (year (now w))
                    ++ 47%N :: str_int (month (now w))
                    ++ 47%N :: str_int (day (now w))
                    ++ 47%N :: job_id w
                  = (LOGFILE_ROOT ++ 47%N :: str_int (year (now w))
                       ++ 47%N :: str_int (month (now w))
                       ++ 47%N :: str_int (day (now w)) ++ [47%N])
                      ++ job_id w).
      { repeat (rewrite <- app_assoc; cbn [app]). reflexivity. }
      rewrite Q, endswith_sep_app; [exact JE | apply J]. }
    rewrite EW. rewrite LOGFILE_ROOT_eq.
    cbn [str_join]. change sep with [47%N].
    repeat (rewrite <- app_assoc; cbn [app]). reflexivity. }
  unfold os_path_abspath. rewrite P at 1.
  rewrite startswith_sep. change (N.eqb 47 47) with true. cbv iota.
  rewrite P. apply normpath_plain; [discriminate|].
  assert (L : forall s : pystr,
            forallb (fun c => negb (N.eqb c 47)) s = true ->
            3 <= List.length s -> plain_name s).
  { intros s F Ln. rewrite forallb_forall in F.
    split; [intros E; rewrite E in Ln; cbn in Ln; lia|].
    split; [intros I; specialize (F _ I); discriminate F|].
    split; intros E; rewrite E in Ln; cbn in Ln; lia. }
  repeat (apply Forall_cons || apply Forall_nil);
    try apply str_int_plain_name; try exact J;
    try (apply fname_plain_name; exact H);
    (apply L; [reflexivity | cbn; lia]).
Qed.

Lemma log_file_is_log_path_witness :
  os_path_abspath (py "/anywhere") (log_path w_example)
  = py "/projects/datascience/PyModuleSnooper/log/2024/3/1/12345/node07.4242.10.15.22.123456".
Proof.
  refine (eq_trans
            (log_file_is_log_path
               {| environ := example_env; sys_modules := example_modules;
                  sys_path := []; sys_executable := PyNone;
                  now := example_now; hostname := py "node07"; pid := 4242;
                  makedirs_outcome := fun _ => None;
                  open_outcome := fun _ => None;
                  getcwd := py "/anywhere"; logging_disable := 0;
                  logger_disabled := false; prior_handlers := [] |} _ _) _).
  - repeat split; try discriminate. cbn. intuition discriminate.
  - cbn. intuition discriminate.
  - reflexivity.
Defined.

(** ** The job id *)

(** X16: the job id of the directory can be read off the record:
    [COBALT_JOBID] passes the filter with its value, the job id is that
    value when the field [cobalt_envs] has the entry, and the placeholder
    ["no-ID"] when it has none. *)
Theorem job_id_from_record (w : world) :
  dict_get (cobalt_envs (environ w)) (py "COBALT_JOBID")
  = dict_get (environ w) (py "COBALT_JOBID")
  /\ job_id w =
     match dict_get (cobalt_envs (environ w)) (py "COBALT_JOBID") with
     | Some v => v
     | None => py "no-ID"
     end.
Proof.
  assert (E : dict_get (cobalt_envs (environ w)) (py "COBALT_JOBID")
              = dict_get (environ w) (py "COBALT_JOBID")).
  { unfold cobalt_envs.
    rewrite (dict_get_filter_keys (fun k => startswith k (py "COBALT"))).
    reflexivity. }
  split; [exact E|]. rewrite E. reflexivity.
Qed.

(** X19: [is_mpi_rank_nonzero] raises exactly what the query it stops at
    raises: [Is_finalized] first, [Is_initialized] only on a runtime that
    is not finalized, [Get_rank] only on one that is initialized as well.
    A rank query that would fail is never reached on a finalized or
    uninitialized runtime. *)
Theorem rank_detection_raises_iff (w : world) (e : exn) :
  is_mpi_rank_nonzero w = Raise e <->
  exists m r,
    dict_get (sys_modules w) (py "mpi4py") = Some m
    /\ MPI m = Some (MPI_runtime r)
    /\ (Is_finalized r = Raise e
        \/ (Is_finalized r = Ok false /\ Is_initialized r = Raise e)
        \/ (Is_finalized r = Ok false /\ Is_initialized r = Ok true
            /\ COMM_WORLD_Get_rank r = Raise e)).
Proof.
  unfold is_mpi_rank_nonzero, dict_contains. split.
  - destruct (dict_get (sys_modules w) (py "mpi4py")) as [m|];
      [|discriminate].
    destruct (MPI m) as [[|r]|] eqn:A; try discriminate.
    intros H. exists m, r. split; [reflexivity|]. split; [exact A|].
    destruct (Is_finalized r) as [[|]|]; try discriminate H;
      [|left; exact H].
    destruct (Is_initialized r) as [[|]|]; try discriminate H;
      [|right; left; split; [reflexivity | exact H]].
    destruct (COMM_WORLD_Get_rank r) as [rank|]; try discriminate H.
    right; right. repeat split. injection H as ->. reflexivity.
  - intros (m & r & D & A & [F|[(F & I)|(F & I & G)]]); rewrite D, A, F;
      try rewrite I; try rewrite G; reflexivity.
Qed.
